(** * LoRe-Mono dataset generators: update rules, simulation loop, writer

    A shallow embedding of the generator scripts under
    [LoRe-Bench/LoRe-Mono/scripts].  Python integers are [Z], Python
    strings are [string], Python lists are [list], a Python dict used as a
    record is an insertion-ordered association list, the file system is a
    finite map from paths to contents, and code that can raise is written
    in an exception monad. *)

From Stdlib Require Import ZArith List String Ascii Lia Bool DecimalString.
From stdpp Require Import base list strings gmap.

Open Scope Z_scope.

(** ** Python values, exceptions and the exception monad *)

Inductive exn : Type :=
  | NameError (name : string)
  | IndexError
  | ZeroDivisionError
  | TypeError
  | FileNotFoundError.

Inductive result (A : Type) : Type :=
  | Ok (a : A)
  | Raise (e : exn).

Arguments Ok {A} a.
Arguments Raise {A} e.

#[global] Instance result_ret : MRet result := fun A a => Ok a.

#[global] Instance result_bind : MBind result := fun A B k m =>
  match m with
  | Ok a => k a
  | Raise e => Raise e
  end.

(** [str(n)] and the [{n}] field of an f-string, for an integer. *)
Definition py_str (n : Z) : string := NilZero.string_of_int (Z.to_int n).

(** The character of the decimal digit [d]. *)
Definition digit_char (d : Z) : ascii := ascii_of_nat (48 + Z.to_nat d).

(** [s.count(c)] for a one-character needle. *)
Fixpoint str_count (s : string) (c : ascii) : Z :=
  match s with
  | EmptyString => 0
  | String a s' => (if Ascii.eqb a c then 1 else 0) + str_count s' c
  end.

(** [len(x)] as a Python integer. *)
Definition py_len {A : Type} (x : list A) : Z := Z.of_nat (length x).

(** [x[k]] on a list: negative indices count from the end, anything
    outside raises [IndexError]. *)
Definition py_getitem {A : Type} (x : list A) (k : Z) : result A :=
  let k' := if k <? 0 then k + py_len x else k in
  if k' <? 0 then Raise IndexError
  else match x !! Z.to_nat k' with
       | Some v => Ok v
       | None => Raise IndexError
       end.

(** [a % b]: the sign of the result follows the divisor, a zero divisor
    raises. *)
Definition py_mod (a b : Z) : result Z :=
  if b =? 0 then Raise ZeroDivisionError else Ok (a mod b).

(** [range(n)] *)
Definition range (n : nat) : list nat := seq 0 n.

(** [x[k] = v] on a list: same index convention as [py_getitem]. *)
Definition py_setitem {A : Type} (x : list A) (k : Z) (v : A) : result (list A) :=
  let k' := if k <? 0 then k + py_len x else k in
  if k' <? 0 then Raise IndexError
  else if k' <? py_len x then Ok (<[Z.to_nat k' := v]> x)
  else Raise IndexError.

(** [s[k]] on a string. *)
Definition str_getitem (s : string) (k : Z) : result ascii :=
  py_getitem (list_ascii_of_string s) k.

(** [ord(c)] *)
Definition ord (c : ascii) : Z := Z.of_N (N_of_ascii c).

(** [for x in xs: body], threading the variables the body assigns. *)
Fixpoint for_in {S A : Type} (xs : list A) (body : A -> S -> result S) (s : S)
  : result S :=
  match xs with
  | [] => Ok s
  | x :: xs' => s' ← body x s; for_in xs' body s'
  end.

(** ** code-1-top-digit-inventory4.py *)

Module Inventory.

Definition TASK_TYPE : string := "digit-inventory-4-fixed8".

Definition update_inventory (s : string) (i : Z) : string :=
  let c0 := str_count s "0" in
  let c1 := str_count s "1" in
  let c2 := str_count s "2" in
  let c3 := str_count s "3" in
  let c4 := str_count s "4" in
  if i mod 2 =? 0 then
    py_str ((c0 + 1) mod 5) +:+ py_str ((c1 + 2) mod 5) +:+
    py_str ((c2 + 1) mod 5) +:+ py_str ((c3 + 1) mod 5) +:+ py_str c4
  else
    py_str ((c0 + 2) mod 5) +:+
    py_str (if 3 <=? c1 then (c1 + 1) mod 5 else (2 * c1 + 1) mod 5) +:+
    py_str ((c2 + 3) mod 5) +:+ py_str ((c3 + 1) mod 5) +:+ py_str c4.

Definition init_state : string := "01938".

End Inventory.

(** ** code-3-top-rule90.py *)

Module Rule90.

Definition TASK_TYPE : string := "rule90-ring".

Definition update_rule90 (b : string) : result string :=
  let L := Z.of_nat (String.length b) in
  out ← for_in (range (String.length b)) (fun i out =>
      let i := Z.of_nat i in
      kl ← py_mod (i - 1) L;
      cl ← str_getitem b kl;
      let left := if Ascii.eqb cl "1" then 1 else 0 in
      kr ← py_mod (i + 1) L;
      cr ← str_getitem b kr;
      let right := if Ascii.eqb cr "1" then 1 else 0 in
      Ok (out ++ [if Z.lxor left right =? 0 then "0"%char else "1"%char]))
    [];
  Ok (string_of_list_ascii out).

Definition init_state : string := "0101011101001".

End Rule90.

(** ** code-4-top-ducci-mod1000.py *)

Module Ducci.

Definition TASK_TYPE : string := "ducci-mod1000-cyclic".

(** The step index [i] is accepted and ignored, as in the source. *)
Definition update_ducci (state : list Z) (i : option Z) : result (list Z) :=
  let x := state in
  let K := py_len x in
  for_in (range (length x)) (fun j y =>
      let j := Z.of_nat j in
      k1 ← (if j <=? 2 then Ok j else py_mod (2 * j) K);
      a ← py_getitem x k1;
      k2 ← py_mod (if j <=? 5 then j + 1 else j - 2) K;
      b ← py_getitem x k2;
      py_setitem y j (Z.abs (a - b) mod 1000))
    (replicate (length x) 0).

Definition init_state : list Z := [11; 5; 3; 16; 12; 1; 5; 8; 2].

(** [''.join(map(str, updated_state))] *)
Definition ANSWER (updated_state : list Z) : string :=
  foldr (fun v acc => py_str v +:+ acc) "" updated_state.

End Ducci.

(** ** code-5-top-affine2d.py *)

Module Affine2d.

Definition TASK_TYPE : string := "affine2d-stepbias-mod1000".

Definition update_affine2d (state : Z * Z * Z) : Z * Z * Z :=
  let '(x, y, t) := state in
  let nx := (2 * x + y + 5 + t) mod 200 in
  let ny := (3 * x + y + 7) mod 200 in
  let nt := (t + 1) mod 200 in
  (nx, ny, nt).

Definition init_state : Z * Z * Z := (1, 2, 0).

End Affine2d.

(** ** lang-shiritori-walk-small-dict.py *)

Module Shiritori.

Definition TASK_TYPE : string := "shiritori-walk-small-dict".

(** [sorted(ws)] on strings: ascending in code-point order.  Equal strings
    are indistinguishable, so the result does not depend on stability. *)
Fixpoint insert_sorted (w : string) (ws : list string) : list string :=
  match ws with
  | [] => [w]
  | v :: ws' => if String.leb w v then w :: v :: ws' else v :: insert_sorted w ws'
  end.

Definition sorted (ws : list string) : list string :=
  foldr insert_sorted [] ws.

(** [w and w[0] == c] *)
Definition starts_with (w : string) (c : ascii) : bool :=
  match w with
  | EmptyString => false
  | String a _ => Ascii.eqb a c
  end.

(** [sorted([w for w in D if w and w[0] == last_char])] *)
Definition candidates_of (last_char : ascii) (D : list string) : list string :=
  sorted (List.filter (fun w => starts_with w last_char) D).

(** [sum(ord(c) for c in w)] *)
Fixpoint ord_sum (w : string) : Z :=
  match w with
  | EmptyString => 0
  | String a w' => ord a + ord_sum w'
  end.

Definition shiritori_step (current_word : string) (D : list string)
  : result string :=
  if String.eqb current_word "" then Ok current_word
  else
    last_char ← str_getitem current_word (-1);
    let candidates := candidates_of last_char D in
    match candidates with
    | [] => Ok current_word            (* stay put *)
    | _ :: _ =>
        let s := ord_sum current_word in
        k ← py_mod s (py_len candidates);     (* ZERO-BASED *)
        py_getitem candidates k
    end.

Definition D : list string :=
  [ "alas"; "basic"; "candid"; "dill"; "elf"; "fang"; "graph"; "haji";
    "improv"; "jazz"; "kebab"; "laptop"; "mule"; "new"; "oven"; "prism";
    "quipu"; "raj"; "suq"; "taco"; "ugly"; "vex"; "war"; "xyst"; "yolk";
    "zebra" ].

Definition w0 : string := "alas".

End Shiritori.

(** ** sci-phys-memory-walk.py *)

Module MemoryWalk.

Definition TASK_TYPE : string := "linear-mono-phys-memory-walk-1D".

(** The field [F] is mutated in place by the source; here the mutated
    list is handed back with the new position and direction. *)
Definition step_once (x dir_ : Z) (F : list Z) : result (Z * Z * list Z) :=
  let L := py_len F in
  b ← py_getitem F x;
  let dir_ := if b =? 1 then - dir_ else dir_ in
  F ← py_setitem F x (1 - b);
  x ← py_mod (x + dir_) L;
  Ok (x, dir_, F).

(** [[int(ch) for ch in F0_str]] with [F0_str = "0101100100010110011"] *)
Definition F0 : list Z :=
  [0; 1; 0; 1; 1; 0; 0; 1; 0; 0; 0; 1; 0; 1; 1; 0; 0; 1; 1].

Definition x0 : Z := 0.
Definition dir0 : Z := 1.

End MemoryWalk.

(** ** sci-bio-enzyme-cofactor.py *)

Module Cofactor.

Definition TASK_TYPE : string := "bio-enzyme-cofactor-queue".

Definition one_tick (A B C t k : Z) : result (Z * Z * Z) :=
  let '(A, B, C) :=
    if (0 <? A) && (0 <? C) then (A - 1, B + 1, C - 1) else (A, B, C) in
  r ← py_mod t k;
  let C := if r =? 0 then C + 1 else C in
  Ok (A, B, C).

End Cofactor.

(** The one-character string [backslash n]. *)
Definition newline : string := String "010" "".

(** ** Records and the output directory *)

(** A JSON scalar as the generators emit them. *)
Inductive jvalue : Type :=
  | JInt (n : Z)
  | JStr (s : string).

(** A [data_line] dict: keys in insertion order. *)
Definition record : Type := list (string * jvalue).

Definition keys (r : record) : list string := map fst r.

Definition get_field (r : record) (k : string) : option jvalue :=
  snd <$> List.find (fun kv => String.eqb (fst kv) k) r.

(** The part of the machine a generator touches: whether [DATA_SAVE_DIR]
    exists, and the files in it by name. *)
Record world : Type := World {
  data_dir : bool;
  files : gmap string string
}.

(** A program is a world transformer that may raise; the world at the
    point of the raise is kept. *)
Definition prog (A : Type) : Type := world -> result A * world.

#[global] Instance prog_ret : MRet prog := fun A a w => (Ok a, w).

#[global] Instance prog_bind : MBind prog := fun A B k m w =>
  match m w with
  | (Ok a, w') => k a w'
  | (Raise e, w') => (Raise e, w')
  end.

(** Pure (world-free) code run inside a program. *)
Definition lift {A : Type} (m : result A) : prog A := fun w => (m, w).

(** [DATA_SAVE_DIR.mkdir(parents=True, exist_ok=True)] *)
Definition mkdir_data : prog unit := fun w => (Ok tt, World true (files w)).

(** An [out_path] that names a file directly in [DATA_SAVE_DIR], as the
    default of every script's [--out_path] does: not empty, not [.] or
    [..], without a [/] or a NUL byte, at most 255 bytes long.  For any
    other [out_path] the path [DATA_SAVE_DIR / out_path] is the directory
    itself, lies in a sub-directory or (for an absolute [out_path]) outside
    [DATA_SAVE_DIR] altogether, none of which [world] describes. *)
Definition plain_file_name (out_path : string) : bool :=
  negb (String.eqb out_path "") && negb (String.eqb out_path ".")
  && negb (String.eqb out_path "..")
  && forallb (fun c => negb (Ascii.eqb c "/") && negb (Ascii.eqb c Ascii.zero))
             (list_ascii_of_string out_path)
  && (String.length out_path <=? 255)%nat.

(** [open(DATA_SAVE_DIR / out_path, "w")] for an [out_path] that is a
    [plain_file_name]: creates the file or truncates it; fails when the
    directory is missing.  Whether [open] succeeds for another [out_path]
    depends on directories outside [world]; the statements on whether
    [main] returns or stops at [open] are made for plain file names. *)
Definition open_w (out_path : string) : prog unit := fun w =>
  if data_dir w
  then (Ok tt, World (data_dir w) (<[out_path := ""]> (files w)))
  else (Raise FileNotFoundError, w).

(** [f.write(chunk)] on the file opened at [out_path]. *)
Definition f_write (out_path chunk : string) : prog unit := fun w =>
  (Ok tt,
   World (data_dir w)
         (<[out_path := default "" (files w !! out_path) +:+ chunk]> (files w))).

(** [for x in xs: body] inside a program. *)
Fixpoint for_prog {S A : Type} (xs : list A) (body : A -> S -> prog S) (s : S)
  : prog S :=
  match xs with
  | [] => mret s
  | x :: xs' => s' ← body x s; for_prog xs' body s'
  end.

(** ** The scripts, by the shape of their [main] *)

(** Where [DATA_SAVE_DIR.mkdir] stands relative to the simulation loop. *)
Inductive mkdir_place : Type :=
  | NoMkdir | MkdirBeforeLoop | MkdirAfterLoop | MkdirBoth.

(** [Buffered]: records are appended to [dataset] in the loop and the file
    is opened and written after it.  [Streaming]: the file is opened first
    and each record is written inside the loop. *)
Inductive writer_kind : Type :=
  | Buffered | Streaming.

Record script : Type := Script {
  file_name : string;
  task_type : string;
  mkdir : mkdir_place;
  writer : writer_kind;
  latex : bool        (* the record carries a "gt_ans_latex" key *)
}.

Definition scripts : list script :=
  [
    Script "code-1-top-digit-inventory4.py" "digit-inventory-4-fixed8"
      MkdirAfterLoop Buffered false;
    Script "code-10-circ-conv-mod10.py" "salted-neighsum-mod10-cyclic"
      MkdirAfterLoop Buffered false;
    Script "code-2-top-rotating-caesar.py" "rotating-caesar-positional"
      MkdirAfterLoop Buffered false;
    Script "code-3-top-rule90.py" "rule90-ring"
      MkdirAfterLoop Buffered false;
    Script "code-4-top-ducci-mod1000.py" "ducci-mod1000-cyclic"
      MkdirAfterLoop Buffered false;
    Script "code-5-top-affine2d.py" "affine2d-stepbias-mod1000"
      MkdirAfterLoop Buffered false;
    Script "code-6-top-outindex-walk.py" "outindex-walk"
      MkdirAfterLoop Buffered false;
    Script "code-7-top-deck8-outshuffle-add.py" "deck8-outshuffle-add"
      MkdirAfterLoop Buffered false;
    Script "code-8-top-digit-rot-add.py" "digit-rot-add-mod10"
      MkdirAfterLoop Buffered false;
    Script "code-9-top-torus-ant.py" "torus-ant-torus-wrap"
      MkdirAfterLoop Buffered false;
    Script "lang-10-rotating-lipogram-sieve.py" "rotating-lipogram-sieve"
      MkdirAfterLoop Buffered false;
    Script "lang-8-mirror-pointer-fixer.py" "palindrome-pointer-fixer"
      MkdirBeforeLoop Buffered false;
    Script "lang-9-spoonerism-swap-walk.py" "spoonerism-swap-walk"
      MkdirAfterLoop Buffered false;
    Script "lang-alliteration-scanner-cyclic.py" "alliteration-scanner-cyclic-harder"
      MkdirAfterLoop Buffered false;
    Script "lang-letter-maze.py" "letter-maze-vowel-right-consonant-down-with-rotations"
      MkdirAfterLoop Buffered false;
    Script "lang-lexical-antonym-synonym-chain.py" "lexical-antonym-synonym-chain"
      MkdirAfterLoop Buffered false;
    Script "lang-morph-adhere-drop.py" "morphology-adhere-drop-cyclic"
      MkdirAfterLoop Buffered false;
    Script "lang-phonology-cv-rotation.py" "phonology-cv-rotation"
      MkdirAfterLoop Buffered false;
    Script "lang-punct-letter-picker.py" "punctuation-guided-letter-picker"
      MkdirAfterLoop Buffered false;
    Script "lang-shiritori-walk-small-dict.py" "shiritori-walk-small-dict"
      MkdirAfterLoop Buffered false;
    Script "math-2term-Fibonacci.py" "linear-monotonicity-altpm"
      MkdirAfterLoop Buffered false;
    Script "math-array-odd-swap.py" "linear-monotonicity-array-odd-swap"
      MkdirAfterLoop Buffered false;
    Script "math-boolean-rotflip-3x3.py" "linear-mono-math-boolean-rotflip-3x3"
      MkdirBeforeLoop Buffered false;
    Script "math-cellular-automaton-v1.py" "linear-monotonicity-cellular-automaton"
      NoMkdir Buffered false;
    Script "math-complex_v1.py" "linear-monotonicity-matrix-harder"
      NoMkdir Buffered false;
    Script "math-matrix-hard-v4.py" "linear-monotonicity-matrix-harder"
      NoMkdir Buffered true;
    Script "math-piecewise.py" "linear-mono-math-piecewise-xor"
      MkdirAfterLoop Buffered false;
    Script "math-rle-length-encoding.py" "rle-alt-odd_len_digit-even_len-sum-mod"
      MkdirBeforeLoop Buffered false;
    Script "math-tri-register-extreme-xor.py" "tri-register-extreme-xor"
      MkdirAfterLoop Buffered false;
    Script "math-weighted-graph.py" "linear-monotonicity-math-weighted-graph"
      MkdirAfterLoop Buffered false;
    Script "sci-bio-dna-mutation.py" "bio-dna-context-dependent-CA"
      MkdirBeforeLoop Buffered false;
    Script "sci-bio-enzyme-cascade-fsm.py" "enzyme-cascade-fsm-tertiary-input"
      MkdirBeforeLoop Buffered false;
    Script "sci-bio-enzyme-cofactor.py" "bio-enzyme-cofactor-queue"
      MkdirAfterLoop Buffered false;
    Script "sci-bio-transposon-hops.py" "transposon-hops-binary-halves-sum"
      MkdirBeforeLoop Buffered false;
    Script "sci-chem-titration.py" "chem-titration"
      MkdirBeforeLoop Buffered false;
    Script "sci-geo-belt-functional-graph.py" "functional-graph-belt-walk"
      MkdirAfterLoop Buffered false;
    Script "sci-geo-torus-sampler.py" "geo-torus-sampler-S1"
      MkdirBeforeLoop Buffered false;
    Script "sci-phys-memory-walk.py" "linear-mono-phys-memory-walk-1D"
      MkdirBeforeLoop Streaming false;
    Script "sci-phys-momentum-buckets.py" "phys-momentum-buckets-S2"
      MkdirBoth Buffered false
  ].

Definition mkdir_before (sc : script) : bool :=
  match mkdir sc with MkdirBeforeLoop | MkdirBoth => true | _ => false end.

Definition mkdir_after (sc : script) : bool :=
  match mkdir sc with MkdirAfterLoop | MkdirBoth => true | _ => false end.

(** ** The generator [main], generic in the puzzle family

    Every script has the same [main]: fix the seed, loop [num_step] times
    (advance the state, render the task text, build [data_line], keep it),
    then create the directory, open the output file and write one dumped
    record per line.  The scripts differ in the rule, the text and the
    place of [mkdir]; sci-phys-memory-walk also opens the file before the
    loop and writes each record inside it.  [num_step] is the length of
    [range(args.num_step)]; the [print] calls go to standard output and are
    left out. *)

Section Generator.

(** [json.dumps(rec, ensure_ascii=False)] *)
Variable json_dumps : record -> string.

Context {State : Type}.

Variable sc : script.
(** Seed state. *)
Variable init : State.
(** What one pass of the loop body does to the state at loop index [i]. *)
Variable advance : State -> nat -> result State.
(** The rendered task text of the record with [step]. *)
Variable task_text : nat -> string.
(** The ground truth taken from the state after the pass. *)
Variable gt_ans : State -> jvalue.
Variable gt_ans_latex : State -> string.

Definition data_line (step : nat) (st : State) : record :=
  [ ("idx", JInt (Z.of_nat step));
    ("type", JStr (task_type sc));
    ("task", JStr (task_text step)) ]
  ++ (if latex sc then [("gt_ans_latex", JStr (gt_ans_latex st))] else [])
  ++ [ ("gt_ans", gt_ans st) ].

(** The loop of a buffered script: advance, then [dataset.append].  The
    record's [idx] is [step = i + 1] (written [i + 1], [t] or [state.t]
    in some scripts, with the same value). *)
Definition loop_body (i : nat) (acc : State * list record)
  : result (State * list record) :=
  let '(st, dataset) := acc in
  st' ← advance st i;
  let step := (i + 1)%nat in
  Ok (st', dataset ++ [data_line step st']).

Definition simulate (num_step : nat) : result (State * list record) :=
  for_in (range num_step) loop_body (init, []).

Definition write_line (out_path : string) (rec : record) : prog unit :=
  f_write out_path (json_dumps rec +:+ newline).

Definition write_dataset (out_path : string) (dataset : list record)
  : prog unit :=
  open_w out_path;;
  for_prog dataset (fun rec _ => write_line out_path rec) tt.

Definition main_buffered (num_step : nat) (out_path : string) : prog unit :=
  (if mkdir_before sc then mkdir_data else mret tt);;
  r ← lift (simulate num_step);
  (if mkdir_after sc then mkdir_data else mret tt);;
  write_dataset out_path r.2.

Definition main_streaming (num_step : nat) (out_path : string) : prog unit :=
  (if mkdir_before sc then mkdir_data else mret tt);;
  open_w out_path;;
  for_prog (range num_step) (fun i st =>
      st' ← lift (advance st i);
      let step := (i + 1)%nat in
      write_line out_path (data_line step st');;
      mret st')
    init;;
  mret tt.

Definition main (num_step : nat) (out_path : string) : prog unit :=
  match writer sc with
  | Buffered => main_buffered num_step out_path
  | Streaming => main_streaming num_step out_path
  end.

End Generator.

(** ** The loop of the code-N scripts, as written

    [updated_state = None] before the loop; the first pass applies the rule
    to [init_state], every later pass to [updated_state].  The rule is
    called with the loop index [i], the record carries [step = i + 1]. *)

Section SeededLoop.

Context {State : Type}.
Variable update : State -> nat -> result State.
Variable init_state : State.
Variable line : nat -> State -> record.

Definition seeded_body (i : nat) (acc : option State * list record)
  : result (option State * list record) :=
  let '(updated_state, dataset) := acc in
  let step := (i + 1)%nat in
  updated_state ←
    (if (i =? 0)%nat then update init_state i
     else match updated_state with
          | Some u => update u i
          | None => Raise TypeError
          end);
  Ok (Some updated_state, dataset ++ [line step updated_state]).

Definition seeded_loop (num_step : nat)
  : result (option State * list record) :=
  for_in (range num_step) seeded_body (None, []).

End SeededLoop.

Definition inventory_script : script :=
  Script "code-1-top-digit-inventory4.py" Inventory.TASK_TYPE
         MkdirAfterLoop Buffered false.

Definition rule90_script : script :=
  Script "code-3-top-rule90.py" Rule90.TASK_TYPE MkdirAfterLoop Buffered false.

Definition shiritori_script : script :=
  Script "lang-shiritori-walk-small-dict.py" Shiritori.TASK_TYPE
         MkdirAfterLoop Buffered false.


Definition memory_walk_script : script :=
  Script "sci-phys-memory-walk.py" MemoryWalk.TASK_TYPE
         MkdirBeforeLoop Streaming false.

Definition matrix_script : script :=
  Script "math-matrix-hard-v4.py" "linear-monotonicity-matrix-harder"
         NoMkdir Buffered true.

Section Mains.

Variable json_dumps : record -> string.
Variable task_text : nat -> string.

(** code-1: [updated_state = update_inventory(..., i)], [gt_ans] is the
    state string itself. *)
Definition inventory_loop (num_step : nat)
  : result (option string * list record) :=
  seeded_loop
    (fun s i => Ok (Inventory.update_inventory s (Z.of_nat i)))
    Inventory.init_state
    (data_line inventory_script task_text JStr (fun _ => ""))
    num_step.

(** code-3: [updated_state = update_rule90(...)]. *)
Definition rule90_loop (num_step : nat)
  : result (option string * list record) :=
  seeded_loop
    (fun b _ => Rule90.update_rule90 b)
    Rule90.init_state
    (data_line rule90_script task_text JStr (fun _ => ""))
    num_step.

(** lang-shiritori: [current_word = shiritori_step(current_word, D)]. *)
Definition shiritori_main (D : list string) (w0 : string)
  (num_step : nat) (out_path : string) : prog unit :=
  main json_dumps shiritori_script w0
       (fun w _ => Shiritori.shiritori_step w D)
       task_text JStr (fun _ => "") num_step out_path.




End Mains.

(** The [gt_ans] of the record with [idx = N] in a dataset built by a loop
    (records sit at position [N - 1]). *)
Definition recorded (dataset : list record) (N : nat) : option jvalue :=
  r ← dataset !! (N - 1)%nat; get_field r "gt_ans".

(** ** The programs embedded in the task texts

    The task text of code-1 and code-4 carries a Python program that the
    reader is told to run as it is.  Its variables live in a namespace;
    reading a name that is bound neither in the function's locals nor in
    the module's globals raises [NameError]. *)

Inductive pyval : Type :=
  | VInt (n : Z)
  | VStr (s : string)
  | VList (l : list Z)
  | VFun.

Definition load_name (locals globals : gmap string pyval) (x : string)
  : result pyval :=
  match locals !! x with
  | Some v => Ok v
  | None =>
      match globals !! x with
      | Some v => Ok v
      | None => Raise (NameError x)
      end
  end.

Definition as_int (v : pyval) : result Z :=
  match v with VInt n => Ok n | _ => Raise TypeError end.

Definition as_str (v : pyval) : result string :=
  match v with VStr s => Ok s | _ => Raise TypeError end.

Definition as_list (v : pyval) : result (list Z) :=
  match v with VList l => Ok l | _ => Raise TypeError end.

Module InventorySnippet.

(** [def f(s)] of the embedded program: the body of [update_inventory]
    with the parameter [i] dropped from the signature but still read. *)
Definition f (globals : gmap string pyval) (s : string) : result string :=
  let c0 := str_count s "0" in
  let c1 := str_count s "1" in
  let c2 := str_count s "2" in
  let c3 := str_count s "3" in
  let c4 := str_count s "4" in
  let locals : gmap string pyval :=
    <["c4" := VInt c4]> (<["c3" := VInt c3]> (<["c2" := VInt c2]>
      (<["c1" := VInt c1]> (<["c0" := VInt c0]> {["s" := VStr s]})))) in
  i ← load_name locals globals "i" ≫= as_int;
  if i mod 2 =? 0 then
    Ok (py_str ((c0 + 1) mod 5) +:+ py_str ((c1 + 2) mod 5) +:+
        py_str ((c2 + 1) mod 5) +:+ py_str ((c3 + 1) mod 5) +:+ py_str c4)
  else
    Ok (py_str ((c0 + 2) mod 5) +:+
        py_str (if 3 <=? c1 then (c1 + 1) mod 5 else (2 * c1 + 1) mod 5) +:+
        py_str ((c2 + 3) mod 5) +:+ py_str ((c3 + 1) mod 5) +:+ py_str c4).

(** [N = step; s = init_state; def f ...; for _ in range(N): s = f(s);
    ANSWER = s] *)
Definition program (step : nat) (init_state : string) : result string :=
  let globals : gmap string pyval :=
    <["f" := VFun]> (<["s" := VStr init_state]>
      {["N" := VInt (Z.of_nat step)]}) in
  globals ← for_in (range step) (fun k globals =>
      let globals := <["_" := VInt (Z.of_nat k)]> globals in
      s ← load_name ∅ globals "s" ≫= as_str;
      s' ← f globals s;
      Ok (<["s" := VStr s']> globals))
    globals;
  load_name ∅ globals "s" ≫= as_str.

End InventorySnippet.

Module DucciSnippet.

(** [def f(vec)] of the embedded program: the loop variable is [i], the
    body still reads [j]. *)
Definition f (globals : gmap string pyval) (vec : list Z)
  : result (list Z) :=
  let K := py_len vec in
  for_in (range (length vec)) (fun i out =>
      let i := Z.of_nat i in
      let locals : gmap string pyval :=
        <["i" := VInt i]> (<["out" := VList out]>
          (<["K" := VInt K]> {["vec" := VList vec]})) in
      j ← load_name locals globals "j" ≫= as_int;
      k1 ← (if j <=? 2 then Ok j else py_mod (2 * j) K);
      a ← py_getitem vec k1;
      k2 ← py_mod (if j <=? 5 then j + 1 else j - 2) K;
      b ← py_getitem vec k2;
      py_setitem out i (Z.abs (a - b) mod 1000))
    (replicate (length vec) 0).

(** [N = step; x = init_state; def f ...; for _ in range(N): x = f(x);
    ANSWER = ''.join(map(str, x))] *)
Definition program (step : nat) (init_state : list Z) : result string :=
  let globals : gmap string pyval :=
    <["f" := VFun]> (<["x" := VList init_state]>
      {["N" := VInt (Z.of_nat step)]}) in
  globals ← for_in (range step) (fun k globals =>
      let globals := <["_" := VInt (Z.of_nat k)]> globals in
      x ← load_name ∅ globals "x" ≫= as_list;
      x' ← f globals x;
      Ok (<["x" := VList x']> globals))
    globals;
  x ← load_name ∅ globals "x" ≫= as_list;
  Ok (Ducci.ANSWER x).

End DucciSnippet.

(** [N] applications of a rule to the seed, the call at position [i]
    (counted from 0) receiving [i]. *)
Definition run_rule {State : Type} (update : State -> nat -> result State)
  (init_state : State) (N : nat) : result State :=
  for_in (range N) (fun i st => update st i) init_state.

(** The states the digit-inventory loop can hold after at least one
    pass, whatever step indices the rule is given. *)
Inductive inventory_reachable : string -> Prop :=
  | reach_first (i : Z) :
      inventory_reachable (Inventory.update_inventory Inventory.init_state i)
  | reach_next (s : string) (i : Z) :
      inventory_reachable s ->
      inventory_reachable (Inventory.update_inventory s i).

(** Five digit characters. *)
Definition five_digits (d0 d1 d2 d3 d4 : Z) : string :=
  String (digit_char d0) (String (digit_char d1) (String (digit_char d2)
    (String (digit_char d3) (String (digit_char d4) "")))).

(** A binary cell. *)
Definition is_bit (c : ascii) : Prop := c = "0"%char \/ c = "1"%char.

(** The index remap of the Ducci rule for a vector of length 9, in the
    words of the task description, and the textbook Ducci rule. *)
Definition ducci_idx1 (j : Z) : Z := if j <=? 2 then j else (2 * j) mod 9.
Definition ducci_idx2 (j : Z) : Z :=
  if j <=? 5 then (j + 1) mod 9 else (j - 2) mod 9.

Definition ducci_remapped (x : list Z) : list Z :=
  map (fun j => Z.abs (nth (Z.to_nat (ducci_idx1 j)) x 0
                       - nth (Z.to_nat (ducci_idx2 j)) x 0) mod 1000)
      [0; 1; 2; 3; 4; 5; 6; 7; 8].

Definition ducci_textbook (x : list Z) : list Z :=
  map (fun j => Z.abs (nth (Z.to_nat j) x 0
                       - nth (Z.to_nat ((j + 1) mod 9)) x 0))
      [0; 1; 2; 3; 4; 5; 6; 7; 8].

(** The text of a .jsonl file holding [ds]: each record dumped and
    followed by a newline, in order. *)
Definition jsonl (json_dumps : record -> string) (ds : list record) : string :=
  foldr (fun r acc => (json_dumps r +:+ newline) +:+ acc) "" ds.

(** ** Closed forms used to state what the rules compute *)

(** Whether cell [k] of the ring [b] holds the character '1'. *)
Definition is_one (b : string) (k : Z) : bool :=
  match list_ascii_of_string b !! Z.to_nat k with
  | Some c => Ascii.eqb c "1"
  | None => false
  end.

(** The next value of cell [i]: the exclusive or of its two ring
    neighbours. *)
Definition rule90_cell (b : string) (i : nat) : ascii :=
  let L := Z.of_nat (String.length b) in
  if xorb (is_one b ((Z.of_nat i - 1) mod L)) (is_one b ((Z.of_nat i + 1) mod L))
  then "1"%char else "0"%char.

(** Every character other than '1' replaced by '0'. *)
Fixpoint as_binary (b : string) : string :=
  match b with
  | EmptyString => EmptyString
  | String c b' =>
      String (if Ascii.eqb c "1" then "1"%char else "0"%char) (as_binary b')
  end.

(** Component [j] of the Ducci update of a vector [x] of any length: the
    index remap of the source, out of the loop. *)
Definition ducci_cell (x : list Z) (j : nat) : Z :=
  let K := py_len x in
  let j := Z.of_nat j in
  let k1 := if j <=? 2 then j else (2 * j) mod K in
  let k2 := (if j <=? 5 then j + 1 else j - 2) mod K in
  Z.abs (nth (Z.to_nat k1) x 0 - nth (Z.to_nat k2) x 0) mod 1000.

(** ** code-5 and code-3: the loops and the embedded programs *)

Definition affine2d_script : script :=
  Script "code-5-top-affine2d.py" Affine2d.TASK_TYPE
         MkdirAfterLoop Buffered false.

(** The ground truth string "x,y,t" of code-5, also the [ANSWER] of its
    embedded program. *)
Definition gt_str (st : Z * Z * Z) : string :=
  let '(x, y, t) := st in
  py_str x +:+ "," +:+ py_str y +:+ "," +:+ py_str t.

(** code-5: [updated_state = update_affine2d(...)], [gt_ans = gt_str]. *)
Definition affine2d_loop (task_text : nat -> string) (num_step : nat)
  : result (option (Z * Z * Z) * list record) :=
  seeded_loop
    (fun st _ => Ok (Affine2d.update_affine2d st))
    Affine2d.init_state
    (data_line affine2d_script task_text (fun st => JStr (gt_str st))
               (fun _ => ""))
    num_step.

Module Affine2dSnippet.

(** [def f(x, y, t)]: every name it reads is a parameter or a local. *)
Definition f (x y t : Z) : Z * Z * Z :=
  let nx := (2 * x + y + 5 + t) mod 200 in
  let ny := (3 * x + y + 7) mod 200 in
  let nt := (t + 1) mod 200 in
  (nx, ny, nt).

(** [N = step; x, y, t = init_state; def f ...;
    for _ in range(N): x, y, t = f(x, y, t); ANSWER = f"{x},{y},{t}"] *)
Definition program (step : nat) (init_state : Z * Z * Z) : result string :=
  let '(x0, y0, t0) := init_state in
  let globals : gmap string pyval :=
    <["f" := VFun]> (<["t" := VInt t0]> (<["y" := VInt y0]>
      (<["x" := VInt x0]> {["N" := VInt (Z.of_nat step)]}))) in
  globals ← for_in (range step) (fun k globals =>
      let globals := <["_" := VInt (Z.of_nat k)]> globals in
      x ← load_name ∅ globals "x" ≫= as_int;
      y ← load_name ∅ globals "y" ≫= as_int;
      t ← load_name ∅ globals "t" ≫= as_int;
      let '(nx, ny, nt) := f x y t in
      Ok (<["t" := VInt nt]> (<["y" := VInt ny]>
            (<["x" := VInt nx]> globals))))
    globals;
  x ← load_name ∅ globals "x" ≫= as_int;
  y ← load_name ∅ globals "y" ≫= as_int;
  t ← load_name ∅ globals "t" ≫= as_int;
  Ok (py_str x +:+ "," +:+ py_str y +:+ "," +:+ py_str t).

End Affine2dSnippet.

Module Rule90Snippet.

(** [def f(b)]: the body of [update_rule90]; every name it reads is the
    parameter or a local. *)
Definition f (b : string) : result string :=
  let L := Z.of_nat (String.length b) in
  out ← for_in (range (String.length b)) (fun i out =>
      let i := Z.of_nat i in
      kl ← py_mod (i - 1) L;
      cl ← str_getitem b kl;
      let left := if Ascii.eqb cl "1" then 1 else 0 in
      kr ← py_mod (i + 1) L;
      cr ← str_getitem b kr;
      let right := if Ascii.eqb cr "1" then 1 else 0 in
      Ok (out ++ [if Z.lxor left right =? 0 then "0"%char else "1"%char]))
    [];
  Ok (string_of_list_ascii out).

(** [N = step; b = init_state; def f ...; for _ in range(N): b = f(b);
    ANSWER = b] *)
Definition program (step : nat) (init_state : string) : result string :=
  let globals : gmap string pyval :=
    <["f" := VFun]> (<["b" := VStr init_state]>
      {["N" := VInt (Z.of_nat step)]}) in
  globals ← for_in (range step) (fun k globals =>
      let globals := <["_" := VInt (Z.of_nat k)]> globals in
      b ← load_name ∅ globals "b" ≫= as_str;
      b' ← f b;
      Ok (<["b" := VStr b']> globals))
    globals;
  load_name ∅ globals "b" ≫= as_str.

End Rule90Snippet.

(** The walk of the Shiritori generator on its dictionary, from "alas":
    the words after 0, 1, ..., 25 steps. *)
Definition shiritori_cycle : list string :=
  [ "alas"; "suq"; "quipu"; "ugly"; "yolk"; "kebab"; "basic"; "candid";
    "dill"; "laptop"; "prism"; "mule"; "elf"; "fang"; "graph"; "haji";
    "improv"; "vex"; "xyst"; "taco"; "oven"; "new"; "war"; "raj"; "jazz";
    "zebra" ].

(** A state of the memory walk the rule is written for: the probe on a
    site of the ring, a direction of -1 or +1, a field of 0/1 domains. *)
Definition walk_valid (st : Z * Z * list Z) : Prop :=
  let '(x, dir_, F) := st in
  0 <= x < py_len F /\
  (dir_ = 1 \/ dir_ = -1) /\
  Forall (fun b => b = 0 \/ b = 1) F.


(** ** math-matrix-hard-v4.py *)

Module Matrix.

Definition TASK_TYPE : string := "linear-monotonicity-matrix-harder".

(** The arrays are numpy arrays of 64-bit signed integers, whose
    arithmetic wraps round. *)
Definition wrap64 (z : Z) : Z := (z + 2 ^ 63) mod 2 ^ 64 - 2 ^ 63.

(** [np.mod(a, m)] on 64-bit integers, for a modulus that is itself
    within the 64-bit range (given a Python int outside it numpy raises
    OverflowError instead): the sign follows the divisor, a zero divisor
    gives 0. *)
Definition np_mod (a m : Z) : Z := if m =? 0 then 0 else a mod m.

(** A 2 by 2 array, by rows. *)
Definition matrix : Type := (Z * Z) * (Z * Z).

Definition update_matrix (M : matrix) (mod_num : Z) : matrix :=
  let '((a, b), (c, d)) := M in
  (* matrix = matrix + np.array([[0,0], [0,1]]) *)
  let '((a, b), (c, d)) :=
    ((wrap64 (a + 0), wrap64 (b + 0)), (wrap64 (c + 0), wrap64 (d + 1))) in
  (* swapped_matrix = matrix[[1, 0]] *)
  let '((sa, sb), (sc, sd)) := ((c, d), (a, b)) in
  (* matrix = matrix @ swapped_matrix *)
  let '((a, b), (c, d)) :=
    ((wrap64 (a * sa + b * sc), wrap64 (a * sb + b * sd)),
     (wrap64 (c * sa + d * sc), wrap64 (c * sb + d * sd))) in
  (* matrix = np.mod(matrix, mod_num) *)
  ((np_mod a mod_num, np_mod b mod_num), (np_mod c mod_num, np_mod d mod_num)).

Definition init_matrix : matrix := ((1, 2), (5, -3)).
Definition mod_num : Z := 11.

(** [int(np.sum(updated_matrix))] *)
Definition sum_answer (M : matrix) : Z :=
  let '((a, b), (c, d)) := M in wrap64 (a + b + c + d).

(** The [gt_ans_latex] f-string. *)
Definition gt_ans_latex (M : matrix) : string :=
  let '((a, b), (c, d)) := M in
  "\( \begin{bmatrix} " +:+ py_str a +:+ " & " +:+ py_str b +:+ " \\ "
  +:+ py_str c +:+ " & " +:+ py_str d +:+ " \end{bmatrix} \)".

End Matrix.

(** math-matrix-hard-v4: [updated_matrix = update_matrix(..., mod_num)],
    [gt_ans = int(np.sum(updated_matrix))], with [gt_ans_latex]. *)
Definition matrix_main (json_dumps : record -> string)
  (task_text : nat -> string) (num_step : nat) (out_path : string)
  : prog unit :=
  main json_dumps matrix_script Matrix.init_matrix
       (fun M _ => Ok (Matrix.update_matrix M Matrix.mod_num))
       task_text (fun M => JInt (Matrix.sum_answer M)) Matrix.gt_ans_latex
       num_step out_path.

(** Whether a script never creates the output directory. *)
Definition no_mkdir (sc : script) : bool :=
  match mkdir sc with NoMkdir => true | _ => false end.

(** ** lang-lexical-antonym-synonym-chain.py *)

Module Lexical.

(** The two exceptions [update_word] raises itself. *)
Inductive raised : Type :=
  | ValueError
  | KeyError.

Inductive outcome (A : Type) : Type :=
  | Returns (a : A)
  | Raises (e : raised).

Arguments Returns {A} a.
Arguments Raises {A} e.

Definition PAIRS_LIST : list (string * string) :=
  [ ("true", "false"); ("left", "right"); ("bright", "dark");
    ("near", "far"); ("rich", "poor"); ("visible", "hidden");
    ("thin", "fat"); ("heavy", "light"); ("domestic", "foreign");
    ("fiction", "nonfiction"); ("narrow", "broad"); ("present", "past");
    ("profit", "loss"); ("push", "pull"); ("borrower", "lender");
    ("leader", "follower"); ("birth", "death"); ("victory", "defeat");
    ("neutral", "biased"); ("positive", "negative") ].

(** [for a, b in PAIRS_LIST: PAIRS_MAP[a] = b; PAIRS_MAP[b] = a] *)
Definition PAIRS_MAP : gmap string string :=
  foldl (fun m ab => <[ab.2 := ab.1]> (<[ab.1 := ab.2]> m)) ∅ PAIRS_LIST.

(** The items of the [SYN_MAP] dict literal, in the order written. *)
Definition SYN_ITEMS : list (string * string) :=
  [ ("bright", "light"); ("light", "visible"); ("visible", "true");
    ("true", "positive"); ("positive", "victory"); ("victory", "profit");
    ("profit", "rich"); ("rich", "leader"); ("leader", "borrower");
    ("borrower", "present"); ("present", "near"); ("near", "narrow");
    ("narrow", "thin"); ("thin", "domestic"); ("domestic", "fiction");
    ("fiction", "birth"); ("birth", "left"); ("left", "push");
    ("push", "heavy"); ("heavy", "dark"); ("dark", "hidden");
    ("hidden", "false"); ("false", "negative"); ("negative", "defeat");
    ("defeat", "loss"); ("loss", "poor"); ("poor", "lender");
    ("lender", "past"); ("past", "far"); ("far", "broad"); ("broad", "fat");
    ("fat", "foreign"); ("foreign", "nonfiction"); ("nonfiction", "death");
    ("death", "right"); ("right", "pull"); ("pull", "neutral");
    ("neutral", "follower"); ("follower", "biased"); ("biased", "bright") ].

Definition SYN_MAP : gmap string string :=
  foldl (fun m kv => <[kv.1 := kv.2]> m) ∅ SYN_ITEMS.

(** [set("acegikmoqsuwy")] *)
Definition ODD_LETTERS : list ascii := list_ascii_of_string "acegikmoqsuwy".

(** [c.lower()] on one character: the letters A..Z go to a..z.  (A word
    whose first character is not ASCII is in neither table, and raises
    KeyError on either branch.) *)
Definition lower (c : ascii) : ascii :=
  let n := nat_of_ascii c in
  if ((65 <=? n) && (n <=? 90))%nat then ascii_of_nat (n + 32) else c.

Definition update_word (word : string) : outcome string :=
  match word with
  | EmptyString => Raises ValueError
  | String c _ =>
      let first := lower c in
      if existsb (Ascii.eqb first) ODD_LETTERS then
        match PAIRS_MAP !! word with
        | None => Raises KeyError
        | Some w => Returns w
        end
      else
        match SYN_MAP !! word with
        | None => Raises KeyError
        | Some w => Returns w
        end
  end.

(** [for i in range(n): current_word = update_word(current_word)] *)
Fixpoint walk (n : nat) (current_word : string) : outcome string :=
  match n with
  | O => Returns current_word
  | S n' =>
      match update_word current_word with
      | Returns w => walk n' w
      | Raises e => Raises e
      end
  end.

(** The 40 words of the tables, in the order of the [SYN_MAP] literal. *)
Definition WORDS : list string := map fst SYN_ITEMS.

End Lexical.

(** * Properties *)

(** ** The exception monad and [for] loops *)

Lemma bind_Ok {A B : Type} (a : A) (k : A -> result B) : Ok a ≫= k = k a.
Proof. reflexivity. Qed.

Lemma bind_Ok_inv {A B : Type} (m : result A) (k : A -> result B) (b : B) :
  m ≫= k = Ok b -> exists a, m = Ok a /\ k a = Ok b.
Proof.
  destruct m as [a|e]; simpl; intros H.
  - exists a. split; [reflexivity | exact H].
  - discriminate H.
Qed.

Lemma for_in_app {S A : Type} (body : A -> S -> result S) (xs ys : list A) (s : S) :
  for_in (xs ++ ys) body s = for_in xs body s ≫= for_in ys body.
Proof.
  revert s. induction xs as [|x xs IH]; intros s; simpl.
  - reflexivity.
  - destruct (body x s) as [s'|e]; simpl; [apply IH | reflexivity].
Qed.

Lemma range_S (n : nat) : range (S n) = range n ++ [n].
Proof. unfold range. rewrite seq_S. reflexivity. Qed.

Lemma for_in_range_S {S : Type} (body : nat -> S -> result S) (n : nat) (s : S) :
  for_in (range (Datatypes.S n)) body s = for_in (range n) body s ≫= body n.
Proof.
  rewrite range_S, for_in_app.
  destruct (for_in (range n) body s) as [s'|e]; simpl; [|reflexivity].
  destruct (body n s'); reflexivity.
Qed.

(** A loop over [range(n)] whose body keeps an index-dependent invariant
    runs to completion and establishes the invariant at [n]. *)
Lemma for_in_range_inv {S : Type} (body : nat -> S -> result S)
  (I : nat -> S -> Prop) (n : nat) (s : S) :
  I 0%nat s ->
  (forall i st, (i < n)%nat -> I i st ->
     exists st', body i st = Ok st' /\ I (Datatypes.S i) st') ->
  exists s', for_in (range n) body s = Ok s' /\ I n s'.
Proof.
  intros H0 Hstep. induction n as [|n IH].
  - exists s. split; [reflexivity | exact H0].
  - destruct IH as (s1 & Hrun & HI).
    { intros i st Hi. apply Hstep. lia. }
    destruct (Hstep n s1) as (s2 & Hb & HI2); [lia | exact HI |].
    exists s2. split; [|exact HI2].
    rewrite for_in_range_S, Hrun. simpl. exact Hb.
Qed.

Lemma run_rule_S {State : Type} (update : State -> nat -> result State)
  (init_state : State) (N : nat) :
  run_rule update init_state (S N)
  = run_rule update init_state N ≫= (fun st => update st N).
Proof. unfold run_rule. apply for_in_range_S. Qed.

(** A rule that is total on an invariant and re-establishes it keeps it
    at every step of a run. *)
Lemma run_rule_inv {State : Type} (update : State -> nat -> result State)
  (I : State -> Prop) (init_state : State) :
  I init_state ->
  (forall st i, I st -> exists st', update st i = Ok st' /\ I st') ->
  forall N, exists st, run_rule update init_state N = Ok st /\ I st.
Proof.
  intros H0 Hupd N. induction N as [|N (st & Hst & HI)].
  - exists init_state. split; [reflexivity | exact H0].
  - destruct (Hupd st N HI) as (st' & Hst' & HI').
    exists st'. split; [|exact HI']. rewrite run_rule_S, Hst. exact Hst'.
Qed.

Lemma run_rule_post {State : Type} (update : State -> nat -> result State)
  (P : State -> Prop) (init_state : State) :
  (forall st i, exists st', update st i = Ok st' /\ P st') ->
  forall N, exists st, run_rule update init_state (S N) = Ok st /\ P st.
Proof.
  intros Hupd N.
  destruct (run_rule_inv update (fun _ => True) init_state I) with (N := N)
    as (st & Hst & _).
  { intros st i _. destruct (Hupd st i) as (st' & E & _). eauto. }
  destruct (Hupd st N) as (st' & Hst' & HP).
  exists st'. split; [|exact HP]. rewrite run_rule_S, Hst. exact Hst'.
Qed.

(** ** Python primitives *)

Lemma py_mod_ok (a b : Z) : b <> 0 -> py_mod a b = Ok (a mod b).
Proof.
  intros Hb. unfold py_mod.
  destruct (Z.eqb_spec b 0) as [E|_]; [contradiction | reflexivity].
Qed.

Lemma py_getitem_ok {A : Type} (x : list A) (k : Z) :
  0 <= k < py_len x ->
  exists v, py_getitem x k = Ok v /\ x !! Z.to_nat k = Some v.
Proof.
  intros [Hlo Hhi]. unfold py_getitem, py_len in *. cbv zeta.
  rewrite !(proj2 (Z.ltb_ge k 0)) by lia.
  destruct (x !! Z.to_nat k) as [v|] eqn:E.
  - exists v. split; reflexivity.
  - apply lookup_ge_None in E. lia.
Qed.

Lemma py_setitem_ok {A : Type} (x : list A) (k : Z) (v : A) :
  0 <= k < py_len x -> py_setitem x k v = Ok (<[Z.to_nat k := v]> x).
Proof.
  intros [Hlo Hhi]. unfold py_setitem. cbv zeta.
  rewrite !(proj2 (Z.ltb_ge k 0)) by lia.
  rewrite (proj2 (Z.ltb_lt k (py_len x))) by lia. reflexivity.
Qed.

Lemma str_count_bounds (s : string) (c : ascii) :
  0 <= str_count s c <= Z.of_nat (String.length s).
Proof.
  induction s as [|a s IH]; simpl String.length; simpl str_count.
  - lia.
  - destruct (Ascii.eqb a c); lia.
Qed.

Lemma length_list_ascii (s : string) :
  length (list_ascii_of_string s) = String.length s.
Proof. induction s as [|a s IH]; simpl; [reflexivity | now rewrite IH]. Qed.

Lemma length_string_of_list (l : list ascii) :
  String.length (string_of_list_ascii l) = length l.
Proof. induction l as [|a l IH]; simpl; [reflexivity | now rewrite IH]. Qed.

(** The decimal rendering of a one-digit number is one digit character. *)
Lemma py_str_digit (d : Z) :
  0 <= d <= 9 -> py_str d = String (digit_char d) "".
Proof.
  intros H.
  assert (d = 0 \/ d = 1 \/ d = 2 \/ d = 3 \/ d = 4 \/
          d = 5 \/ d = 6 \/ d = 7 \/ d = 8 \/ d = 9) as Hd by lia.
  repeat (destruct Hd as [->|Hd]; [reflexivity|]).
  subst d. reflexivity.
Qed.

(** ** Digit inventory *)

Lemma update_inventory_five_digits (p : string) (i : Z) :
  (String.length p <= 9)%nat ->
  exists d0 d1 d2 d3 : Z,
    (0 <= d0 < 5 /\ 0 <= d1 < 5 /\ 0 <= d2 < 5 /\ 0 <= d3 < 5) /\
    0 <= str_count p "4" <= 9 /\
    Inventory.update_inventory p i = five_digits d0 d1 d2 d3 (str_count p "4").
Proof.
  intros Hlen.
  pose proof (str_count_bounds p "4") as H4.
  unfold Inventory.update_inventory. cbv zeta.
  set (c0 := str_count p "0"). set (c1 := str_count p "1").
  set (c2 := str_count p "2"). set (c3 := str_count p "3").
  set (c4 := str_count p "4") in *.
  assert (0 <= c4 <= 9) as Hc4 by lia.
  assert (forall a, 0 <= a mod 5 < 5) as Hm
    by (intros a; apply Z.mod_pos_bound; lia).
  assert (forall a, py_str (a mod 5) = String (digit_char (a mod 5)) "") as Hs
    by (intros a; apply py_str_digit; specialize (Hm a); lia).
  destruct (i mod 2 =? 0).
  - exists ((c0 + 1) mod 5), ((c1 + 2) mod 5), ((c2 + 1) mod 5), ((c3 + 1) mod 5).
    split; [repeat split; apply Hm|]. split; [exact Hc4|].
    rewrite !Hs, (py_str_digit c4) by exact Hc4. reflexivity.
  - destruct (3 <=? c1).
    + exists ((c0 + 2) mod 5), ((c1 + 1) mod 5), ((c2 + 3) mod 5), ((c3 + 1) mod 5).
      split; [repeat split; apply Hm|]. split; [exact Hc4|].
      rewrite !Hs, (py_str_digit c4) by exact Hc4. reflexivity.
    + exists ((c0 + 2) mod 5), ((2 * c1 + 1) mod 5), ((c2 + 3) mod 5), ((c3 + 1) mod 5).
      split; [repeat split; apply Hm|]. split; [exact Hc4|].
      rewrite !Hs, (py_str_digit c4) by exact Hc4. reflexivity.
Qed.

Lemma inventory_reachable_length (s : string) :
  inventory_reachable s -> String.length s = 5%nat.
Proof.
  intros H. induction H as [i | p i Hp IH].
  - destruct (update_inventory_five_digits Inventory.init_state i)
      as (d0 & d1 & d2 & d3 & _ & _ & ->); [simpl; lia | reflexivity].
  - destruct (update_inventory_five_digits p i)
      as (d0 & d1 & d2 & d3 & _ & _ & ->); [lia | reflexivity].
Qed.

(** C10.  Every state reached from the seed "01938" by one or more
    applications of [update_inventory], under any step indices, is a string
    of exactly five decimal digits: four digits in 0..4 (each a count of the
    previous state, shifted, mod 5), then the count of '4' in the previous
    state, which is at most 9 and so one digit. *)
Theorem inventory_reachable_five_digits (s : string) :
  inventory_reachable s ->
  String.length s = 5%nat /\
  exists (p : string) (i d0 d1 d2 d3 : Z),
    (p = Inventory.init_state \/ inventory_reachable p) /\
    s = Inventory.update_inventory p i /\
    (0 <= d0 < 5 /\ 0 <= d1 < 5 /\ 0 <= d2 < 5 /\ 0 <= d3 < 5) /\
    0 <= str_count p "4" <= 9 /\
    s = five_digits d0 d1 d2 d3 (str_count p "4").
Proof.
  intros H. split; [apply inventory_reachable_length; exact H|].
  destruct H as [i | p i Hp].
  - destruct (update_inventory_five_digits Inventory.init_state i)
      as (d0 & d1 & d2 & d3 & Hd & H4 & E); [simpl; lia|].
    exists Inventory.init_state, i, d0, d1, d2, d3.
    repeat split; first [tauto | lia | exact E].
  - pose proof (inventory_reachable_length p Hp) as Hlen.
    destruct (update_inventory_five_digits p i)
      as (d0 & d1 & d2 & d3 & Hd & H4 & E); [lia|].
    exists p, i, d0, d1, d2, d3.
    repeat split; first [tauto | lia | exact E].
Qed.

Lemma inventory_reachable_five_digits_witness :
  inventory_reachable "23120" /\
  String.length "23120" = 5%nat.
Proof.
  assert (inventory_reachable "23120") as H by exact (reach_first 0).
  split; [exact H|].
  exact (proj1 (inventory_reachable_five_digits "23120" H)).
Defined.

(** ** Ducci, affine map, rule 90: the rules are total and stay in range *)

Lemma update_ducci_range (x : list Z) (i : option Z) :
  exists y, Ducci.update_ducci x i = Ok y /\
            length y = length x /\ Forall (fun v => 0 <= v < 1000) y.
Proof.
  unfold Ducci.update_ducci. cbv zeta.
  apply (for_in_range_inv _
           (fun _ y => length y = length x /\ Forall (fun v => 0 <= v < 1000) y)).
  - split; [apply length_replicate|].
    apply Forall_replicate. lia.
  - intros j y Hj [Hlen Hall]. cbv beta zeta.
    assert (0 < py_len x) as HK by (unfold py_len; lia).
    assert (exists k1, (if Z.of_nat j <=? 2 then Ok (Z.of_nat j)
                        else py_mod (2 * Z.of_nat j) (py_len x)) = Ok k1
                       /\ 0 <= k1 < py_len x) as (k1 & -> & Hk1).
    { destruct (Z.of_nat j <=? 2).
      - exists (Z.of_nat j). split; [reflexivity | unfold py_len; lia].
      - rewrite py_mod_ok by lia. eexists. split; [reflexivity|].
        apply Z.mod_pos_bound. exact HK. }
    simpl.
    destruct (py_getitem_ok x k1 Hk1) as (a & -> & _). simpl.
    rewrite py_mod_ok by lia. simpl.
    destruct (py_getitem_ok x
                ((if Z.of_nat j <=? 5 then Z.of_nat j + 1 else Z.of_nat j - 2)
                   mod py_len x)) as (b & -> & _).
    { apply Z.mod_pos_bound. exact HK. }
    simpl.
    rewrite py_setitem_ok by (unfold py_len; lia).
    eexists. split; [reflexivity|]. split.
    + rewrite length_insert. exact Hlen.
    + apply Forall_insert; [exact Hall|].
      apply Z.mod_pos_bound. lia.
Qed.

Lemma update_affine2d_range (state : Z * Z * Z) :
  let '(nx, ny, nt) := Affine2d.update_affine2d state in
  0 <= nx < 200 /\ 0 <= ny < 200 /\ 0 <= nt < 200.
Proof.
  destruct state as [[x y] t]. simpl.
  repeat split; apply Z.mod_pos_bound; lia.
Qed.

Lemma str_getitem_ok (s : string) (k : Z) :
  0 <= k < Z.of_nat (String.length s) -> exists c, str_getitem s k = Ok c.
Proof.
  intros Hk. unfold str_getitem.
  destruct (py_getitem_ok (list_ascii_of_string s) k) as (c & Hc & _).
  - unfold py_len. rewrite length_list_ascii. exact Hk.
  - exists c. exact Hc.
Qed.

Lemma update_rule90_bits (b : string) :
  exists b', Rule90.update_rule90 b = Ok b' /\
             String.length b' = String.length b /\
             Forall is_bit (list_ascii_of_string b').
Proof.
  unfold Rule90.update_rule90. cbv zeta.
  destruct (for_in_range_inv
    (fun i out =>
       kl ← py_mod (Z.of_nat i - 1) (Z.of_nat (String.length b));
       cl ← str_getitem b kl;
       kr ← py_mod (Z.of_nat i + 1) (Z.of_nat (String.length b));
       cr ← str_getitem b kr;
       Ok (out ++
             [if Z.lxor (if Ascii.eqb cl "1" then 1 else 0)
                        (if Ascii.eqb cr "1" then 1 else 0) =? 0
              then "0"%char else "1"%char]))
    (fun i out => length out = i /\ Forall is_bit out)
    (String.length b) []) as (out & Hrun & Hlen & Hbits).
  - split; [reflexivity | constructor].
  - intros i out Hi [Hlen Hbits].
    set (L := Z.of_nat (String.length b)).
    assert (0 < L) as HL by (unfold L; lia).
    rewrite (py_mod_ok (Z.of_nat i - 1) L) by lia. rewrite bind_Ok.
    destruct (str_getitem_ok b ((Z.of_nat i - 1) mod L)) as (cl & ->).
    { apply Z.mod_pos_bound. exact HL. }
    rewrite bind_Ok, (py_mod_ok (Z.of_nat i + 1) L) by lia. rewrite bind_Ok.
    destruct (str_getitem_ok b ((Z.of_nat i + 1) mod L)) as (cr & ->).
    { apply Z.mod_pos_bound. exact HL. }
    rewrite bind_Ok. eexists. split; [reflexivity|]. split.
    + rewrite length_app. simpl. lia.
    + apply Forall_app. split; [exact Hbits|].
      constructor; [|constructor].
      destruct (Z.lxor _ _ =? 0); [left | right]; reflexivity.
  - exists (string_of_list_ascii out). rewrite Hrun. simpl.
    split; [reflexivity|]. split.
    + rewrite length_string_of_list. exact Hlen.
    + rewrite list_ascii_of_string_of_list_ascii. exact Hbits.
Qed.

(** C7.  Every component of [update_ducci]'s output lies in [0, 1000),
    every component of [update_affine2d]'s output lies in [0, 200), and
    [update_rule90] returns a string of the same length made of '0' and '1';
    the rules never raise, so the same holds for the state after every step
    of a run from any seed. *)
Theorem range_validity :
  (forall x i, exists y,
      Ducci.update_ducci x i = Ok y /\
      length y = length x /\ Forall (fun v => 0 <= v < 1000) y) /\
  (forall state,
      let '(nx, ny, nt) := Affine2d.update_affine2d state in
      0 <= nx < 200 /\ 0 <= ny < 200 /\ 0 <= nt < 200) /\
  (forall b, exists b',
      Rule90.update_rule90 b = Ok b' /\
      String.length b' = String.length b /\
      Forall is_bit (list_ascii_of_string b')) /\
  (forall seed N, exists y,
      run_rule (fun st i => Ducci.update_ducci st (Some (Z.of_nat i)))
               seed (S N) = Ok y /\
      Forall (fun v => 0 <= v < 1000) y) /\
  (forall seed N, exists st,
      run_rule (fun st _ => Ok (Affine2d.update_affine2d st)) seed (S N)
      = Ok st /\
      let '(x, y, t) := st in
      0 <= x < 200 /\ 0 <= y < 200 /\ 0 <= t < 200) /\
  (forall seed N, exists b,
      run_rule (fun b _ => Rule90.update_rule90 b) seed (S N) = Ok b /\
      String.length b = String.length seed /\
      Forall is_bit (list_ascii_of_string b)).
Proof.
  split; [exact update_ducci_range|].
  split; [exact update_affine2d_range|].
  split; [exact update_rule90_bits|].
  split; [|split].
  - intros seed N. apply run_rule_post. intros st i.
    destruct (update_ducci_range st (Some (Z.of_nat i))) as (y & E & _ & Hy).
    exists y. split; assumption.
  - intros seed N.
    apply (run_rule_post (fun st _ => Ok (Affine2d.update_affine2d st))
             (fun st => let '(x, y, t) := st in
                        0 <= x < 200 /\ 0 <= y < 200 /\ 0 <= t < 200)).
    intros st i. exists (Affine2d.update_affine2d st).
    split; [reflexivity|]. apply update_affine2d_range.
  - intros seed N.
    destruct (run_rule_inv (fun b _ => Rule90.update_rule90 b)
                (fun b => String.length b = String.length seed) seed)
      with (N := N) as (b & Hb & Hlen).
    + reflexivity.
    + intros st i Hst.
      destruct (update_rule90_bits st) as (b' & E & Hl & _).
      exists b'. split; [exact E | congruence].
    + destruct (update_rule90_bits b) as (b' & E & Hl & Hbits).
      exists b'. split; [|split].
      * rewrite run_rule_S, Hb. exact E.
      * congruence.
      * exact Hbits.
Qed.

(** C4.  On the seed [11,5,3,16,12,1,5,8,2] one application of
    [update_ducci] returns y with y[j] = abs(x[idx1] - x[idx2]) % 1000,
    idx1 = j if j <= 2 else (2*j) % 9 and idx2 = (j+1) % 9 if j <= 5 else
    (j-2) % 9, for every j in 0..8; this is not the textbook Ducci vector. *)
Theorem ducci_seed_remapped :
  forall i,
    Ducci.update_ducci Ducci.init_state i
    = Ok (ducci_remapped Ducci.init_state) /\
    ducci_remapped Ducci.init_state = [6; 2; 13; 7; 1; 0; 4; 0; 3] /\
    ducci_textbook Ducci.init_state = [6; 2; 13; 4; 11; 4; 3; 6; 9] /\
    Ducci.update_ducci Ducci.init_state i
    <> Ok (ducci_textbook Ducci.init_state).
Proof.
  intros i.
  assert (Ducci.update_ducci Ducci.init_state i
          = Ok [6; 2; 13; 7; 1; 0; 4; 0; 3]) as E by reflexivity.
  rewrite E. repeat split; try reflexivity. discriminate.
Qed.

(** ** Shiritori *)

(** C8.  On the 26-word dictionary the words starting with 's', the last
    character of "alas", are exactly ["suq"]; so the first step from "alas"
    yields "suq", and would for any value of the checksum. *)
Theorem shiritori_first_step :
  str_getitem Shiritori.w0 (-1) = Ok "s"%char /\
  Shiritori.candidates_of "s" Shiritori.D = ["suq"] /\
  Shiritori.shiritori_step Shiritori.w0 Shiritori.D = Ok "suq" /\
  forall s : Z,
    py_mod s (py_len (Shiritori.candidates_of "s" Shiritori.D))
      ≫= py_getitem (Shiritori.candidates_of "s" Shiritori.D)
    = Ok "suq".
Proof.
  repeat split; try reflexivity.
  intros s.
  change (Shiritori.candidates_of "s" Shiritori.D) with ["suq"].
  rewrite py_mod_ok by (unfold py_len; simpl; lia).
  unfold py_len. simpl length. rewrite Z.mod_1_r. reflexivity.
Qed.

(** ** The simulation loop *)

Section SeededLoopSpec.

Context {State : Type}.
Variable update : State -> nat -> result State.
Variable init_state : State.
Variable line : nat -> State -> record.
Variable ans : State -> jvalue.
Hypothesis line_gt_ans :
  forall step st, get_field (line step st) "gt_ans" = Some (ans st).

Lemma seeded_loop_S (n : nat) :
  seeded_loop update init_state line (S n)
  = seeded_loop update init_state line n
      ≫= seeded_body update init_state line n.
Proof. unfold seeded_loop. apply for_in_range_S. Qed.

(** When [n] applications of the rule succeed, the loop returns, holding
    the last state, with one record per step, the record of step [N]
    built from the state after [N] applications. *)
Lemma seeded_loop_spec (n : nat) :
  forall st, run_rule update init_state n = Ok st ->
  exists ds,
    seeded_loop update init_state line n
    = Ok (if (n =? 0)%nat then None else Some st, ds) /\
    length ds = n /\
    forall N, (1 <= N <= n)%nat ->
      exists cur, run_rule update init_state N = Ok cur /\
                  ds !! (N - 1)%nat = Some (line N cur).
Proof.
  induction n as [|n IH]; intros st Hrun.
  - exists []. repeat split. intros N HN. lia.
  - rewrite run_rule_S in Hrun.
    apply bind_Ok_inv in Hrun as (st0 & Hrun0 & Hupd).
    destruct (IH st0 Hrun0) as (ds0 & Hloop & Hlen & Hrec).
    exists (ds0 ++ [line (n + 1)%nat st]). split; [|split].
    + rewrite seeded_loop_S, Hloop, bind_Ok. unfold seeded_body.
      destruct n as [|n'].
      * cbn in Hrun0. injection Hrun0 as <-.
        cbn [Nat.eqb]. rewrite Hupd. reflexivity.
      * cbn [Nat.eqb]. rewrite Hupd. reflexivity.
    + rewrite length_app. simpl. lia.
    + intros N HN. destruct (Nat.eq_dec N (S n)) as [->|Hne].
      * exists st. split.
        -- rewrite run_rule_S, Hrun0. exact Hupd.
        -- rewrite lookup_app_r by lia.
           replace (S n - 1 - length ds0)%nat with 0%nat by lia.
           replace (n + 1)%nat with (S n) by lia. reflexivity.
      * destruct (Hrec N) as (cur & Hcur & Hlk); [lia|].
        exists cur. split; [exact Hcur|].
        rewrite lookup_app_l by lia. exact Hlk.
Qed.

(** The record of step [N] holds one more application of the rule, at
    loop index [N - 1], to what the record of step [N - 1] holds (to the
    seed for [N = 1]); it is [N] applications from the seed. *)
Lemma seeded_loop_incremental (n N : nat) (st : State) :
  (1 <= N <= n)%nat ->
  run_rule update init_state n = Ok st ->
  exists u ds prev cur,
    seeded_loop update init_state line n = Ok (u, ds) /\
    recorded ds N = Some (ans cur) /\
    (if (N =? 1)%nat then prev = init_state
     else recorded ds (N - 1) = Some (ans prev)) /\
    update prev (N - 1)%nat = Ok cur /\
    run_rule update init_state N = Ok cur.
Proof.
  intros HN Hrun.
  destruct (seeded_loop_spec n st Hrun) as (ds & Hloop & Hlen & Hrec).
  destruct (Hrec N HN) as (cur & Hcur & Hlk).
  assert (exists prev, run_rule update init_state (N - 1) = Ok prev /\
                       update prev (N - 1)%nat = Ok cur) as (prev & Hprev & Hupd).
  { destruct N as [|N']; [lia|].
    rewrite run_rule_S in Hcur.
    apply bind_Ok_inv in Hcur as (prev & Hp & Hu).
    exists prev. replace (S N' - 1)%nat with N' by lia. split; assumption. }
  exists (if (n =? 0)%nat then None else Some st), ds, prev, cur.
  split; [exact Hloop|]. split; [|split; [|split]].
  - unfold recorded. rewrite Hlk. simpl. apply line_gt_ans.
  - destruct (Nat.eqb_spec N 1) as [->|Hne].
    + cbn in Hprev. congruence.
    + destruct (Hrec (N - 1)%nat) as (prev' & Hprev' & Hlk'); [lia|].
      unfold recorded. rewrite Hlk'. simpl. rewrite line_gt_ans.
      congruence.
  - exact Hupd.
  - exact Hcur.
Qed.

End SeededLoopSpec.

Lemma inventory_run_total (N : nat) :
  exists st,
    run_rule (fun s i => Ok (Inventory.update_inventory s (Z.of_nat i)))
             Inventory.init_state N = Ok st.
Proof.
  destruct (run_rule_inv
              (fun s i => Ok (Inventory.update_inventory s (Z.of_nat i)))
              (fun _ => True) Inventory.init_state I) with (N := N)
    as (st & Hst & _).
  - intros st i _. eauto.
  - exists st. exact Hst.
Qed.

Lemma rule90_run_total (N : nat) :
  exists st,
    run_rule (fun b (_ : nat) => Rule90.update_rule90 b) Rule90.init_state N
    = Ok st.
Proof.
  destruct (run_rule_inv (fun b (_ : nat) => Rule90.update_rule90 b)
              (fun _ => True) Rule90.init_state I) with (N := N)
    as (st & Hst & _).
  - intros st i _. destruct (update_rule90_bits st) as (b' & E & _). eauto.
  - exists st. exact Hst.
Qed.

(** C2 (amended).  In the digit-inventory and the rule-90 generators, for
    every [num_step] and every N with 1 <= N <= num_step, the loop returns
    and the state recorded for step N is exactly one more application of the
    update rule to the state recorded for step N-1 (the seed for N = 1),
    the rule being given the loop index N-1, not N; it equals N applications
    of the rule to the seed at indices 0..N-1. *)
Theorem recorded_state_incremental
  (task_text : nat -> string) (num_step N : nat) :
  (1 <= N <= num_step)%nat ->
  (exists u ds prev cur,
      inventory_loop task_text num_step = Ok (u, ds) /\
      recorded ds N = Some (JStr cur) /\
      (if (N =? 1)%nat then prev = Inventory.init_state
       else recorded ds (N - 1) = Some (JStr prev)) /\
      cur = Inventory.update_inventory prev (Z.of_nat (N - 1)) /\
      run_rule (fun s i => Ok (Inventory.update_inventory s (Z.of_nat i)))
               Inventory.init_state N = Ok cur) /\
  (exists u ds prev cur,
      rule90_loop task_text num_step = Ok (u, ds) /\
      recorded ds N = Some (JStr cur) /\
      (if (N =? 1)%nat then prev = Rule90.init_state
       else recorded ds (N - 1) = Some (JStr prev)) /\
      Rule90.update_rule90 prev = Ok cur /\
      run_rule (fun b _ => Rule90.update_rule90 b) Rule90.init_state N
      = Ok cur).
Proof.
  intros HN. split.
  - destruct (inventory_run_total num_step) as [st Hst].
    destruct (seeded_loop_incremental
                (fun s i => Ok (Inventory.update_inventory s (Z.of_nat i)))
                Inventory.init_state
                (data_line inventory_script task_text JStr (fun _ => ""))
                JStr (fun _ _ => eq_refl) num_step N st HN Hst)
      as (u & ds & prev & cur & Hloop & Hrec & Hprev & Hupd & Hrun).
    exists u, ds, prev, cur. repeat split; try assumption.
    congruence.
  - destruct (rule90_run_total num_step) as [st Hst].
    destruct (seeded_loop_incremental
                (fun b (_ : nat) => Rule90.update_rule90 b)
                Rule90.init_state
                (data_line rule90_script task_text JStr (fun _ => ""))
                JStr (fun _ _ => eq_refl) num_step N st HN Hst)
      as (u & ds & prev & cur & Hloop & Hrec & Hprev & Hupd & Hrun).
    exists u, ds, prev, cur. repeat split; assumption.
Qed.

Lemma recorded_state_incremental_witness :
  (1 <= 2 <= 3)%nat /\
  exists u ds prev cur,
    inventory_loop (fun _ => "") 3 = Ok (u, ds) /\
    recorded ds 2 = Some (JStr cur) /\
    (if (2 =? 1)%nat then prev = Inventory.init_state
     else recorded ds (2 - 1) = Some (JStr prev)) /\
    cur = Inventory.update_inventory prev (Z.of_nat (2 - 1)) /\
    run_rule (fun s i => Ok (Inventory.update_inventory s (Z.of_nat i)))
             Inventory.init_state 2 = Ok cur.
Proof.
  assert (1 <= 2 <= 3)%nat as H by lia.
  split; [exact H|].
  exact (proj1 (recorded_state_incremental (fun _ => "") 3 2 H)).
Defined.

(** C2 as stated fails: the state recorded for step 1 is not the rule
    applied with step index 1 to the seed. *)
Lemma recorded_state_step_index_counterexample :
  exists u ds,
    inventory_loop (fun _ => "") 1 = Ok (u, ds) /\
    recorded ds 1 = Some (JStr "23120") /\
    recorded ds 1
    <> Some (JStr (Inventory.update_inventory Inventory.init_state 1)).
Proof.
  eexists _, _. split; [reflexivity|]. split; [reflexivity|].
  vm_compute. discriminate.
Qed.

(** C3 (amended).  With seed "01938", step 1 of the digit-inventory
    generator (loop index 0, even branch) yields the 5-character string
    "23120": the counts of '0','1','2','3' in the seed, each shifted by
    +1,+2,+1,+1 and taken mod 5, then the count of '4' as it is. *)
Theorem inventory_step_one :
  let c0 := str_count Inventory.init_state "0" in
  let c1 := str_count Inventory.init_state "1" in
  let c2 := str_count Inventory.init_state "2" in
  let c3 := str_count Inventory.init_state "3" in
  let c4 := str_count Inventory.init_state "4" in
  (c0, c1, c2, c3, c4) = (1, 1, 0, 1, 0) /\
  Inventory.update_inventory Inventory.init_state 0
  = py_str ((c0 + 1) mod 5) +:+ py_str ((c1 + 2) mod 5) +:+
    py_str ((c2 + 1) mod 5) +:+ py_str ((c3 + 1) mod 5) +:+ py_str c4 /\
  Inventory.update_inventory Inventory.init_state 0 = "23120" /\
  String.length (Inventory.update_inventory Inventory.init_state 0) = 5%nat /\
  forall task_text, exists u ds,
    inventory_loop task_text 1 = Ok (u, ds) /\
    recorded ds 1 = Some (JStr "23120").
Proof.
  cbv zeta. repeat split.
  intros task_text. eexists _, _. split; reflexivity.
Qed.

(** C3 as stated fails: the string produced at step 1 does not have 8
    characters. *)
Lemma inventory_step_one_length_counterexample :
  String.length (Inventory.update_inventory Inventory.init_state 0) <> 8%nat.
Proof. vm_compute. discriminate. Qed.

(** ** The embedded programs *)

Lemma inventory_snippet_raises (n : nat) (init_state : string) :
  InventorySnippet.program (S n) init_state = Raise (NameError "i").
Proof. reflexivity. Qed.

Lemma ducci_snippet_raises (n : nat) (v : Z) (init_state : list Z) :
  DucciSnippet.program (S n) (v :: init_state) = Raise (NameError "j").
Proof. reflexivity. Qed.

(** C1.  Run as it is, the program embedded in the task text of record 1
    of the digit-inventory generator stops with NameError on [i], and the
    one of the Ducci generator with NameError on [j]; neither produces the
    record's [gt_ans], "23120" and "6213710403". *)
Theorem embedded_program_raises :
  InventorySnippet.program 1 Inventory.init_state = Raise (NameError "i") /\
  (forall task_text, exists u ds,
      inventory_loop task_text 1 = Ok (u, ds) /\
      recorded ds 1 = Some (JStr "23120")) /\
  DucciSnippet.program 1 Ducci.init_state = Raise (NameError "j") /\
  (Ducci.update_ducci Ducci.init_state (Some 0)) ≫= (fun y => Ok (Ducci.ANSWER y))
  = Ok "6213710403".
Proof.
  split; [reflexivity|]. split; [|split; reflexivity].
  intros task_text. eexists _, _. split; reflexivity.
Qed.

(** With [i] bound in the module namespace the embedded [f] would agree
    with [update_inventory]; the program never binds it. *)
Lemma inventory_snippet_body (globals : gmap string pyval) (s : string) (i : Z) :
  globals !! "i" = Some (VInt i) ->
  InventorySnippet.f globals s = Ok (Inventory.update_inventory s i).
Proof.
  intros Hi. unfold InventorySnippet.f, Inventory.update_inventory. cbv zeta.
  unfold load_name.
  rewrite !lookup_insert_ne by discriminate.
  rewrite lookup_singleton_ne by discriminate.
  rewrite Hi. cbn [mbind result_bind as_int].
  destruct (i mod 2 =? 0); reflexivity.
Qed.

(** ** Shiritori: an empty candidate list *)

Lemma py_getitem_last {A : Type} (x : list A) (a : A) :
  exists v, py_getitem (a :: x) (-1) = Ok v.
Proof.
  unfold py_getitem, py_len. cbv zeta.
  change (-1 <? 0) with true. cbv iota.
  rewrite (proj2 (Z.ltb_ge _ 0)) by (simpl length; lia).
  destruct ((a :: x) !! Z.to_nat (-1 + Z.of_nat (length (a :: x)))) as [v|] eqn:E.
  - exists v. reflexivity.
  - apply lookup_ge_None in E. simpl length in E. lia.
Qed.

Lemma shiritori_step_total (w : string) (D : list string) :
  exists w', Shiritori.shiritori_step w D = Ok w'.
Proof.
  unfold Shiritori.shiritori_step.
  destruct w as [|a w]; [exists ""; reflexivity|].
  cbn [String.eqb]. unfold str_getitem. cbn [list_ascii_of_string].
  destruct (py_getitem_last (list_ascii_of_string w) a) as (c & ->).
  rewrite bind_Ok.
  destruct (Shiritori.candidates_of c D) as [|v cs] eqn:E.
  - eexists. reflexivity.
  - assert (0 < py_len (v :: cs)) as Hlen by (unfold py_len; simpl length; lia).
    rewrite py_mod_ok by lia. rewrite bind_Ok.
    destruct (py_getitem_ok (v :: cs)
                (Shiritori.ord_sum (String a w) mod py_len (v :: cs)))
      as (w' & Hw' & _).
    + apply Z.mod_pos_bound. exact Hlen.
    + exists w'. exact Hw'.
Qed.

(** C5 (amended).  [shiritori_step] does not raise on an empty candidate
    list: when no dictionary word starts with the last character of the
    current word, it returns the current word unchanged; it returns a word
    on every input. *)
Theorem shiritori_empty_candidates_stay :
  (forall (w : string) (D : list string) (c : ascii),
      str_getitem w (-1) = Ok c ->
      Shiritori.candidates_of c D = [] ->
      Shiritori.shiritori_step w D = Ok w) /\
  (forall (w : string) (D : list string),
      exists w', Shiritori.shiritori_step w D = Ok w').
Proof.
  split; [|exact shiritori_step_total].
  intros w D c Hc Hcand. unfold Shiritori.shiritori_step.
  destruct (String.eqb w ""); [reflexivity|].
  rewrite Hc, bind_Ok, Hcand. reflexivity.
Qed.

Lemma shiritori_empty_candidates_stay_witness :
  str_getitem "alas" (-1) = Ok "s"%char /\
  Shiritori.candidates_of "s" ["basic"; "candid"] = [] /\
  Shiritori.shiritori_step "alas" ["basic"; "candid"] = Ok "alas".
Proof.
  split; [reflexivity|]. split; [reflexivity|].
  exact (proj1 shiritori_empty_candidates_stay
           "alas" ["basic"; "candid"] "s"%char eq_refl eq_refl).
Defined.

(** C5 as stated fails: with no word starting with 's' in the dictionary,
    the step from "alas" returns a value instead of raising. *)
Lemma shiritori_empty_candidates_counterexample :
  Shiritori.candidates_of "s" ["basic"] = [] /\
  Shiritori.shiritori_step "alas" ["basic"] = Ok "alas" /\
  ~ (exists e, Shiritori.shiritori_step "alas" ["basic"] = Raise e).
Proof.
  split; [reflexivity|]. split; [reflexivity|].
  intros [e He]. discriminate He.
Qed.

(** ** Programs on the output directory *)

Lemma string_app_assoc (a b c : string) : (a +:+ b) +:+ c = a +:+ (b +:+ c).
Proof.
  induction a as [|x a IH]; [reflexivity|].
  change (String x ((a +:+ b) +:+ c) = String x (a +:+ (b +:+ c))).
  f_equal. exact IH.
Qed.

Lemma string_app_nil_r (a : string) : a +:+ "" = a.
Proof.
  induction a as [|x a IH]; [reflexivity|].
  change (String x (a +:+ "") = String x a). f_equal. exact IH.
Qed.

Lemma jsonl_snoc (json_dumps : record -> string) (ds : list record) (r : record) :
  jsonl json_dumps (ds ++ [r])
  = jsonl json_dumps ds +:+ (json_dumps r +:+ newline).
Proof.
  unfold jsonl. induction ds as [|d ds IH]; cbn [foldr app].
  - apply string_app_nil_r.
  - rewrite IH, !string_app_assoc. reflexivity.
Qed.

Lemma prog_bind_unfold {A B : Type} (m : prog A) (k : A -> prog B) (w : world) :
  (m ≫= k) w
  = match m w with
    | (Ok a, w') => k a w'
    | (Raise e, w') => (Raise e, w')
    end.
Proof. reflexivity. Qed.

Lemma for_prog_app {S A : Type} (body : A -> S -> prog S) (xs ys : list A)
  (s : S) (w : world) :
  for_prog (xs ++ ys) body s w = (for_prog xs body s ≫= for_prog ys body) w.
Proof.
  revert s w. induction xs as [|x xs IH]; intros s w.
  - reflexivity.
  - simpl for_prog. rewrite !prog_bind_unfold.
    destruct (body x s w) as [[s'|e] w']; [|reflexivity].
    rewrite IH, prog_bind_unfold. reflexivity.
Qed.

Lemma for_prog_range_S {S : Type} (body : nat -> S -> prog S) (n : nat)
  (s : S) (w : world) :
  for_prog (range (Datatypes.S n)) body s w
  = (for_prog (range n) body s ≫= body n) w.
Proof.
  rewrite range_S, for_prog_app, !prog_bind_unfold.
  destruct (for_prog (range n) body s w) as [[s'|e] w']; [|reflexivity].
  simpl for_prog. rewrite prog_bind_unfold.
  destruct (body n s' w') as [[s''|e] w'']; reflexivity.
Qed.

Section GeneratorSpec.

Variable json_dumps : record -> string.
Context {State : Type}.
Variable sc : script.
Variable init : State.
Variable advance : State -> nat -> result State.
Variable task_text : nat -> string.
Variable gt_ans : State -> jvalue.
Variable gt_ans_latex : State -> string.

Abbreviation line := (data_line sc task_text gt_ans gt_ans_latex).
Abbreviation body := (loop_body sc advance task_text gt_ans gt_ans_latex).
Abbreviation sim := (simulate sc init advance task_text gt_ans gt_ans_latex).

Lemma data_line_keys (step : nat) (st : State) :
  keys (line step st)
  = if latex sc then ["idx"; "type"; "task"; "gt_ans_latex"; "gt_ans"]
    else ["idx"; "type"; "task"; "gt_ans"].
Proof. unfold data_line. destruct (latex sc); reflexivity. Qed.

Lemma data_line_idx (step : nat) (st : State) :
  get_field (line step st) "idx" = Some (JInt (Z.of_nat step)).
Proof. reflexivity. Qed.

Lemma simulate_S (n : nat) : sim (S n) = sim n ≫= body n.
Proof. unfold simulate. apply for_in_range_S. Qed.

(** The dataset holds one record per pass, the record at position [i]
    built with [step = i + 1]. *)
Lemma simulate_records (n : nat) :
  forall st ds, sim n = Ok (st, ds) ->
  length ds = n /\
  forall i r, ds !! i = Some r -> exists sti, r = line (i + 1)%nat sti.
Proof.
  induction n as [|n IH]; intros st ds Hsim.
  - cbn in Hsim. injection Hsim as <- <-. split; [reflexivity|].
    intros i r Hr. rewrite lookup_nil in Hr. discriminate.
  - rewrite simulate_S in Hsim.
    apply bind_Ok_inv in Hsim as ([st0 ds0] & Hsim0 & Hbody).
    destruct (IH st0 ds0 Hsim0) as [Hlen Hrec].
    unfold loop_body in Hbody.
    apply bind_Ok_inv in Hbody as (st' & Hadv & Hret).
    injection Hret as <- <-. split.
    + rewrite length_app. simpl. lia.
    + intros i r Hr.
      destruct (Nat.lt_ge_cases i (length ds0)) as [Hlt|Hge].
      * rewrite lookup_app_l in Hr by exact Hlt. eauto.
      * rewrite lookup_app_r in Hr by exact Hge.
        destruct (i - length ds0)%nat as [|k] eqn:Ek; [|discriminate].
        injection Hr as <-. exists st'.
        replace i with n by lia. reflexivity.
Qed.


(** Writing the records appends their lines to the file. *)
Lemma write_records (out_path : string) (ds : list record) :
  forall w c, files w !! out_path = Some c ->
  exists w',
    for_prog ds (fun rec _ => write_line json_dumps out_path rec) tt w
    = (Ok tt, w') /\
    files w' !! out_path = Some (c +:+ jsonl json_dumps ds) /\
    data_dir w' = data_dir w.
Proof.
  induction ds as [|r ds IH]; intros w c Hc.
  - exists w. simpl. rewrite string_app_nil_r. auto.
  - simpl for_prog. rewrite prog_bind_unfold.
    unfold write_line at 1, f_write at 1. rewrite Hc. cbn [default].
    destruct (IH (World (data_dir w)
                    (<[out_path := c +:+ (json_dumps r +:+ newline)]> (files w)))
                 (c +:+ (json_dumps r +:+ newline)))
      as (w' & Hrun & Hfile & Hdir).
    { apply lookup_insert_eq. }
    exists w'. split; [exact Hrun|]. split; [|exact Hdir].
    rewrite Hfile. unfold jsonl. cbn [foldr].
    rewrite string_app_assoc. reflexivity.
Qed.


(** A buffered [main] that returns has written the lines of the whole
    dataset, and nothing else, to the output file. *)
Lemma main_buffered_ok (num_step : nat) (out_path : string) (w w' : world) :
  main_buffered json_dumps sc init advance task_text gt_ans gt_ans_latex
                num_step out_path w = (Ok tt, w') ->
  exists st ds,
    sim num_step = Ok (st, ds) /\
    files w' !! out_path = Some (jsonl json_dumps ds).
Proof.
  unfold main_buffered. rewrite prog_bind_unfold.
  set (w0 := if mkdir_before sc then World true (files w) else w).
  assert ((if mkdir_before sc then mkdir_data else mret tt) w = (Ok tt, w0))
    as -> by (unfold w0; destruct (mkdir_before sc); reflexivity).
  rewrite prog_bind_unfold. unfold lift.
  destruct (sim num_step) as [[st ds]|e]; [|discriminate].
  rewrite prog_bind_unfold.
  set (w1 := if mkdir_after sc then World true (files w0) else w0).
  assert ((if mkdir_after sc then mkdir_data else mret tt) w0 = (Ok tt, w1))
    as -> by (unfold w1; destruct (mkdir_after sc); reflexivity).
  unfold write_dataset. rewrite prog_bind_unfold. unfold open_w at 1.
  destruct (data_dir w1); [|discriminate].
  cbn [snd].
  destruct (write_records out_path ds
              (World true (<[out_path := ""]> (files w1))) "")
    as (w2 & Hrun & Hfile & _).
  { apply lookup_insert_eq. }
  rewrite Hrun. intros Hmain. injection Hmain as <-.
  exists st, ds. split; [reflexivity | exact Hfile].
Qed.

(** The streaming loop computes the dataset of [simulate] and has
    appended its lines, one record per pass. *)
Lemma streaming_loop_ok (out_path : string) (n : nat) :
  forall w c st w',
    files w !! out_path = Some c ->
    for_prog (range n) (fun i st =>
        st' ← lift (advance st i);
        write_line json_dumps out_path (line (i + 1)%nat st');;
        mret st') init w = (Ok st, w') ->
    exists ds,
      sim n = Ok (st, ds) /\
      files w' !! out_path = Some (c +:+ jsonl json_dumps ds).
Proof.
  induction n as [|n IH]; intros w c st w' Hc Hrun.
  - cbn in Hrun. injection Hrun as <- <-.
    exists []. split; [reflexivity|]. simpl. rewrite string_app_nil_r. exact Hc.
  - rewrite for_prog_range_S, prog_bind_unfold in Hrun.
    destruct (for_prog (range n) _ init w) as [[st0|e] w0] eqn:Hpre;
      [|discriminate].
    destruct (IH w c st0 w0 Hc Hpre) as (ds0 & Hsim0 & Hfile0).
    rewrite prog_bind_unfold in Hrun. unfold lift in Hrun.
    destruct (advance st0 n) as [st'|e] eqn:Hadv; [|discriminate].
    rewrite prog_bind_unfold in Hrun.
    unfold write_line, f_write in Hrun. rewrite Hfile0 in Hrun.
    cbn in Hrun. injection Hrun as <- <-.
    exists (ds0 ++ [line (n + 1)%nat st']). split.
    + rewrite simulate_S, Hsim0, bind_Ok. unfold loop_body.
      rewrite Hadv. reflexivity.
    + cbn [files]. rewrite lookup_insert_eq, jsonl_snoc, string_app_assoc.
      reflexivity.
Qed.

Lemma main_streaming_ok (num_step : nat) (out_path : string) (w w' : world) :
  main_streaming json_dumps sc init advance task_text gt_ans gt_ans_latex
                 num_step out_path w = (Ok tt, w') ->
  exists st ds,
    sim num_step = Ok (st, ds) /\
    files w' !! out_path = Some (jsonl json_dumps ds).
Proof.
  unfold main_streaming. rewrite prog_bind_unfold.
  set (w0 := if mkdir_before sc then World true (files w) else w).
  assert ((if mkdir_before sc then mkdir_data else mret tt) w = (Ok tt, w0))
    as -> by (unfold w0; destruct (mkdir_before sc); reflexivity).
  rewrite prog_bind_unfold. unfold open_w at 1.
  destruct (data_dir w0); [|discriminate].
  rewrite prog_bind_unfold.
  destruct (for_prog (range num_step) _ init _) as [[st|e] w2] eqn:Hloop;
    [|discriminate].
  intros Hmain. injection Hmain as <-.
  destruct (streaming_loop_ok out_path num_step _ "" st w2
              (lookup_insert_eq _ _ _) Hloop) as (ds & Hsim & Hfile).
  exists st, ds. split; [exact Hsim | exact Hfile].
Qed.

End GeneratorSpec.

(** The loop as written in the code-N scripts builds the dataset of the
    generic loop, and raises when it raises. *)
Lemma seeded_loop_simulate {State : Type} (sc : script)
  (update : State -> nat -> result State) (init_state : State)
  (task_text : nat -> string) (gt_ans : State -> jvalue)
  (gt_ans_latex : State -> string) (n : nat) :
  match seeded_loop update init_state
          (data_line sc task_text gt_ans gt_ans_latex) n,
        simulate sc init_state update task_text gt_ans gt_ans_latex n with
  | Ok (u, ds), Ok (st, ds') =>
      ds = ds' /\
      (if (n =? 0)%nat then u = None /\ st = init_state else u = Some st)
  | Raise e, Raise e' => e = e'
  | _, _ => False
  end.
Proof.
  induction n as [|n IH].
  - cbn. repeat split.
  - rewrite seeded_loop_S, simulate_S.
    destruct (seeded_loop _ _ _ n) as [[u ds]|e];
      destruct (simulate _ _ _ _ _ _ n) as [[st ds']|e']; try contradiction.
    + destruct IH as [<- Hu]. rewrite !bind_Ok.
      unfold seeded_body, loop_body.
      destruct n as [|n']; cbn [Nat.eqb] in *.
      * destruct Hu as [-> ->].
        destruct (update init_state 0%nat); cbn; auto.
      * subst u. destruct (update st (S n')); cbn; auto.
    + exact IH.
Qed.

(** ** The writer phase *)






(** ** Record format *)

(** C9 (amended).  Every record a generator builds has the keys idx, type,
    task, gt_ans, in this order, with gt_ans_latex before gt_ans in exactly
    one script (math-matrix-hard-v4); a [main] that returns has written the
    records of the loop one per line in the order they were built, the
    record at position i carrying idx = i + 1. *)
Theorem record_format :
  (forall (sc : script) (State : Type) (task_text : nat -> string)
          (gt_ans : State -> jvalue) (gt_ans_latex : State -> string)
          (step : nat) (st : State),
      keys (data_line sc task_text gt_ans gt_ans_latex step st)
      = if latex sc then ["idx"; "type"; "task"; "gt_ans_latex"; "gt_ans"]
        else ["idx"; "type"; "task"; "gt_ans"]) /\
  List.filter latex scripts = [matrix_script] /\
  (forall (json_dumps : record -> string) (sc : script) (State : Type)
          (init : State) (advance : State -> nat -> result State)
          (task_text : nat -> string) (gt_ans : State -> jvalue)
          (gt_ans_latex : State -> string)
          (num_step : nat) (out_path : string) (w w' : world),
      main json_dumps sc init advance task_text gt_ans gt_ans_latex
           num_step out_path w = (Ok tt, w') ->
      exists st ds,
        simulate sc init advance task_text gt_ans gt_ans_latex num_step
        = Ok (st, ds) /\
        length ds = num_step /\
        (forall i r, ds !! i = Some r ->
           get_field r "idx" = Some (JInt (Z.of_nat i + 1))) /\
        files w' !! out_path = Some (jsonl json_dumps ds)).
Proof.
  split; [|split].
  - intros. apply data_line_keys.
  - reflexivity.
  - intros json_dumps sc State init advance task_text gt_ans gt_ans_latex
           num_step out_path w w' Hmain.
    assert (exists st ds,
               simulate sc init advance task_text gt_ans gt_ans_latex num_step
               = Ok (st, ds) /\
               files w' !! out_path = Some (jsonl json_dumps ds))
      as (st & ds & Hsim & Hfile).
    { unfold main in Hmain. destruct (writer sc).
      - eapply main_buffered_ok. exact Hmain.
      - eapply main_streaming_ok. exact Hmain. }
    exists st, ds. split; [exact Hsim|].
    destruct (simulate_records sc init advance task_text gt_ans gt_ans_latex
                num_step st ds Hsim) as [Hlen Hrec].
    split; [exact Hlen|]. split; [|exact Hfile].
    intros i r Hr. destruct (Hrec i r Hr) as (sti & ->).
    rewrite data_line_idx. do 2 f_equal. lia.
Qed.

Lemma record_format_witness :
  exists w',
    shiritori_main (fun _ => "{}") (fun _ => "") Shiritori.D Shiritori.w0
                   2 "out.jsonl" (World false ∅) = (Ok tt, w') /\
    exists st ds,
      simulate shiritori_script Shiritori.w0
               (fun w _ => Shiritori.shiritori_step w Shiritori.D)
               (fun _ => "") JStr (fun _ => "") 2 = Ok (st, ds) /\
      length ds = 2%nat /\
      (forall i r, ds !! i = Some r ->
         get_field r "idx" = Some (JInt (Z.of_nat i + 1))) /\
      files w' !! "out.jsonl" = Some (jsonl (fun _ => "{}") ds).
Proof.
  eexists. split; [reflexivity|].
  apply (proj2 (proj2 record_format) (fun _ => "{}") shiritori_script string
           Shiritori.w0 (fun w _ => Shiritori.shiritori_step w Shiritori.D)
           (fun _ => "") JStr (fun _ => "") 2%nat "out.jsonl" (World false ∅)).
  reflexivity.
Defined.

(** C9 as stated fails: the scripts whose records carry gt_ans_latex are
    not two. *)
Lemma gt_ans_latex_scripts_counterexample :
  length (List.filter latex scripts) <> 2%nat /\
  map file_name (List.filter latex scripts) = ["math-matrix-hard-v4.py"].
Proof. split; [vm_compute; discriminate | reflexivity]. Qed.

(** * Further properties of the rules *)

(** ** Rule 90 *)

Lemma str_getitem_lookup (s : string) (k : Z) :
  0 <= k < Z.of_nat (String.length s) ->
  exists c, str_getitem s k = Ok c /\
            list_ascii_of_string s !! Z.to_nat k = Some c.
Proof.
  intros Hk. unfold str_getitem.
  apply py_getitem_ok. unfold py_len. rewrite length_list_ascii. exact Hk.
Qed.

(** X1.  [update_rule90] never raises and returns, cell by cell, the
    exclusive or of the two ring neighbours of each cell of its input, a
    cell counting as 1 exactly when it holds the character '1'. *)
Theorem update_rule90_closed_form (b : string) :
  Rule90.update_rule90 b
  = Ok (string_of_list_ascii (map (rule90_cell b) (range (String.length b)))).
Proof.
  unfold Rule90.update_rule90. cbv zeta.
  destruct (for_in_range_inv
    (fun i out =>
       kl ← py_mod (Z.of_nat i - 1) (Z.of_nat (String.length b));
       cl ← str_getitem b kl;
       kr ← py_mod (Z.of_nat i + 1) (Z.of_nat (String.length b));
       cr ← str_getitem b kr;
       Ok (out ++
             [if Z.lxor (if Ascii.eqb cl "1" then 1 else 0)
                        (if Ascii.eqb cr "1" then 1 else 0) =? 0
              then "0"%char else "1"%char]))
    (fun i out => out = map (rule90_cell b) (range i))
    (String.length b) []) as (out & Hrun & ->).
  - reflexivity.
  - intros i out Hi ->.
    set (L := Z.of_nat (String.length b)).
    assert (0 < L) as HL by (unfold L; lia).
    rewrite (py_mod_ok (Z.of_nat i - 1) L) by lia. rewrite bind_Ok.
    destruct (str_getitem_lookup b ((Z.of_nat i - 1) mod L)) as (cl & -> & Hl).
    { apply Z.mod_pos_bound. exact HL. }
    rewrite bind_Ok, (py_mod_ok (Z.of_nat i + 1) L) by lia. rewrite bind_Ok.
    destruct (str_getitem_lookup b ((Z.of_nat i + 1) mod L)) as (cr & -> & Hr).
    { apply Z.mod_pos_bound. exact HL. }
    rewrite bind_Ok. eexists. split; [reflexivity|].
    rewrite range_S, map_app. f_equal. cbn [map]. f_equal.
    unfold rule90_cell, is_one. fold L. rewrite Hl, Hr.
    destruct (Ascii.eqb cl "1"), (Ascii.eqb cr "1"); reflexivity.
  - rewrite Hrun. reflexivity.
Qed.

(** X2.  On a ring of at most two cells both neighbours of a cell are the
    same cell, so [update_rule90] returns all '0' whatever the input. *)
Theorem update_rule90_short_ring (b : string) :
  (String.length b <= 2)%nat ->
  Rule90.update_rule90 b
  = Ok (string_of_list_ascii (replicate (String.length b) "0"%char)).
Proof.
  intros Hlen. rewrite update_rule90_closed_form. do 2 f_equal.
  transitivity (map (fun _ : nat => "0"%char) (range (String.length b))).
  - apply map_ext_in. intros i Hi. apply in_seq in Hi.
    unfold rule90_cell. cbv zeta.
    set (L := Z.of_nat (String.length b)).
    assert ((Z.of_nat i + 1) mod L = (Z.of_nat i - 1) mod L) as ->.
    { assert (L = 1 \/ L = 2) as [->| ->] by (unfold L; lia).
      - rewrite !Z.mod_1_r. reflexivity.
      - replace (Z.of_nat i + 1) with (Z.of_nat i - 1 + 1 * 2) by lia.
        apply Z_mod_plus_full. }
    rewrite xorb_nilpotent. reflexivity.
  - unfold range. clear Hlen. generalize 0%nat.
    induction (String.length b) as [|n IH]; intros a; cbn;
      [reflexivity | f_equal; apply IH].
Qed.

Lemma update_rule90_short_ring_witness :
  (String.length "1x" <= 2)%nat /\
  Rule90.update_rule90 "1x" = Ok "00".
Proof.
  assert (String.length "1x" <= 2)%nat as H by (simpl; lia).
  split; [exact H|]. exact (update_rule90_short_ring "1x" H).
Defined.

Lemma as_binary_length (b : string) :
  String.length (as_binary b) = String.length b.
Proof. induction b as [|c b IH]; simpl; [reflexivity | now rewrite IH]. Qed.

Lemma as_binary_is_one (b : string) (k : Z) :
  is_one (as_binary b) k = is_one b k.
Proof.
  unfold is_one. generalize (Z.to_nat k) as n.
  induction b as [|c b IH]; intros n.
  - reflexivity.
  - destruct n as [|n]; cbn.
    + destruct (Ascii.eqb c "1"); reflexivity.
    + apply IH.
Qed.

(** X3.  [update_rule90] reads a character only by comparing it with '1':
    replacing every other character of the input by '0' leaves the result
    unchanged. *)
Theorem update_rule90_reads_ones_only (b : string) :
  Rule90.update_rule90 (as_binary b) = Rule90.update_rule90 b.
Proof.
  rewrite !update_rule90_closed_form, as_binary_length. do 2 f_equal.
  apply map_ext. intros i. unfold rule90_cell.
  rewrite as_binary_length, !as_binary_is_one. reflexivity.
Qed.

(** ** Ducci *)

Lemma py_getitem_nth (x : list Z) (k : Z) :
  0 <= k < py_len x -> py_getitem x k = Ok (nth (Z.to_nat k) x 0).
Proof.
  intros Hk. destruct (py_getitem_ok x k Hk) as (v & -> & Hv).
  f_equal. symmetry. apply nth_lookup_Some with (d := 0) in Hv. exact Hv.
Qed.

(** X4.  For a vector of any length, [update_ducci] never raises and
    returns the vector whose component j is
    abs(x[j if j<=2 else 2*j%K] - x[(j+1 if j<=5 else j-2) % K]) % 1000; the
    step index is not used. *)
Theorem update_ducci_closed_form (x : list Z) (i : option Z) :
  Ducci.update_ducci x i = Ok (map (ducci_cell x) (range (length x))).
Proof.
  unfold Ducci.update_ducci. cbv zeta.
  destruct (for_in_range_inv
    (fun j y =>
       k1 ← (if Z.of_nat j <=? 2 then Ok (Z.of_nat j)
             else py_mod (2 * Z.of_nat j) (py_len x));
       a ← py_getitem x k1;
       k2 ← py_mod (if Z.of_nat j <=? 5 then Z.of_nat j + 1
                    else Z.of_nat j - 2) (py_len x);
       b ← py_getitem x k2;
       py_setitem y (Z.of_nat j) (Z.abs (a - b) mod 1000))
    (fun j y => (j <= length x)%nat /\
                y = map (ducci_cell x) (range j)
                    ++ replicate (length x - j) 0)
    (length x) (replicate (length x) 0)) as (y & Hrun & _ & ->).
  - split; [lia|]. rewrite Nat.sub_0_r. reflexivity.
  - intros j y Hj [_ ->].
    assert (0 < py_len x) as HK by (unfold py_len; lia).
    assert ((if Z.of_nat j <=? 2 then Ok (Z.of_nat j)
             else py_mod (2 * Z.of_nat j) (py_len x))
            = Ok (if Z.of_nat j <=? 2 then Z.of_nat j
                  else (2 * Z.of_nat j) mod py_len x)) as ->.
    { destruct (Z.of_nat j <=? 2); [reflexivity | apply py_mod_ok; lia]. }
    rewrite bind_Ok, py_getitem_nth.
    2:{ destruct (Z.leb_spec (Z.of_nat j) 2).
        - unfold py_len. lia.
        - apply Z.mod_pos_bound. exact HK. }
    rewrite bind_Ok, py_mod_ok by lia.
    rewrite bind_Ok, py_getitem_nth by (apply Z.mod_pos_bound; exact HK).
    rewrite bind_Ok, py_setitem_ok.
    2:{ unfold py_len. rewrite length_app, length_map, length_replicate.
        unfold range. rewrite length_seq. lia. }
    eexists. split; [reflexivity|]. split; [lia|].
    rewrite Nat2Z.id.
    rewrite insert_app_r_alt
      by (rewrite length_map; unfold range; rewrite length_seq; lia).
    rewrite length_map. unfold range at 2. rewrite length_seq, Nat.sub_diag.
    replace (length x - j)%nat with (S (length x - S j)) by lia.
    cbn [replicate]. cbn [insert list_insert].
    rewrite range_S, map_app, <- app_assoc. reflexivity.
  - rewrite Hrun, Nat.sub_diag, app_nil_r. reflexivity.
Qed.

(** X5.  A vector whose components are all equal is sent to the zero
    vector of the same length; in particular the zero vector is a fixed
    point of [update_ducci]. *)
Theorem update_ducci_constant (n : nat) (c : Z) (i : option Z) :
  Ducci.update_ducci (replicate n c) i = Ok (replicate n 0).
Proof.
  rewrite update_ducci_closed_form, length_replicate. f_equal.
  assert (forall k : nat, (k < n)%nat -> nth k (replicate n c) 0 = c) as Hnth.
  { intros k Hk. apply nth_lookup_Some with (d := 0).
    apply lookup_replicate. split; [reflexivity | exact Hk]. }
  transitivity (map (fun _ : nat => 0) (range n)).
  - apply map_ext_in. intros j Hj. apply in_seq in Hj.
    unfold ducci_cell, py_len. cbv zeta. rewrite length_replicate.
    assert (0 < Z.of_nat n) as Hn by lia.
    rewrite !Hnth.
    + rewrite Z.sub_diag. reflexivity.
    + pose proof (Z.mod_pos_bound
                    (if Z.of_nat j <=? 5 then Z.of_nat j + 1 else Z.of_nat j - 2)
                    (Z.of_nat n) Hn). lia.
    + destruct (Z.leb_spec (Z.of_nat j) 2); [lia|].
      pose proof (Z.mod_pos_bound (2 * Z.of_nat j) (Z.of_nat n) Hn). lia.
  - clear Hnth. unfold range. generalize 0%nat.
    induction n as [|n IH]; intros a; cbn; [reflexivity | f_equal; apply IH].
Qed.

(** X6.  The answer string of the Ducci generator joins the components
    without a separator, so two different vectors with components in
    [0, 1000) can have the same answer. *)
Theorem ducci_answer_not_injective :
  exists y1 y2 : list Z,
    Forall (fun v => 0 <= v < 1000) y1 /\
    Forall (fun v => 0 <= v < 1000) y2 /\
    length y1 = length y2 /\
    y1 <> y2 /\
    Ducci.ANSWER y1 = Ducci.ANSWER y2.
Proof.
  exists [1; 23], [12; 3].
  repeat split; try (repeat constructor; lia).
  discriminate.
Qed.

(** ** Affine map *)

(** X7.  [update_affine2d] depends on its input only through the residues
    mod 200 of the three components, negative ones included. *)
Theorem update_affine2d_residues (x y t : Z) :
  Affine2d.update_affine2d (x, y, t)
  = Affine2d.update_affine2d (x mod 200, y mod 200, t mod 200).
Proof.
  unfold Affine2d.update_affine2d.
  pose proof (Z.div_mod x 200 ltac:(lia)) as Hx.
  pose proof (Z.div_mod y 200 ltac:(lia)) as Hy.
  pose proof (Z.div_mod t 200 ltac:(lia)) as Ht.
  f_equal; [f_equal|].
  - replace (2 * x + y + 5 + t)
      with (2 * (x mod 200) + y mod 200 + 5 + t mod 200
            + (2 * (x / 200) + y / 200 + t / 200) * 200) by lia.
    apply Z_mod_plus_full.
  - replace (3 * x + y + 7)
      with (3 * (x mod 200) + y mod 200 + 7
            + (3 * (x / 200) + y / 200) * 200) by lia.
    apply Z_mod_plus_full.
  - replace (t + 1) with (t mod 200 + 1 + (t / 200) * 200) by lia.
    apply Z_mod_plus_full.
Qed.

(** X8.  Along a run of the affine rule from any seed (x0, y0, t0) the
    third component counts the steps: after n >= 1 steps it is
    (t0 + n) mod 200. *)
Theorem affine2d_t_counts_steps (x0 y0 t0 : Z) (N : nat) :
  exists x y,
    run_rule (fun st (_ : nat) => Ok (Affine2d.update_affine2d st))
             (x0, y0, t0) (S N)
    = Ok (x, y, (t0 + Z.of_nat (S N)) mod 200).
Proof.
  induction N as [|N (x & y & IH)].
  - cbn. eexists _, _. do 3 f_equal.
  - rewrite run_rule_S, IH, bind_Ok. cbn [Affine2d.update_affine2d].
    eexists _, _. do 2 f_equal.
    rewrite Z.add_mod_idemp_l by lia. f_equal. lia.
Qed.

(** ** The embedded programs of code-3 and code-5 *)

Lemma load_global (g : gmap string pyval) (x : string) (v : pyval) :
  g !! x = Some v -> load_name ∅ g x = Ok v.
Proof. intros H. unfold load_name. rewrite lookup_empty, H. reflexivity. Qed.

Lemma rule90_snippet_run (init_state : string) (N : nat) :
  Rule90Snippet.program N init_state
  = run_rule (fun b (_ : nat) => Rule90.update_rule90 b) init_state N.
Proof.
  unfold Rule90Snippet.program. cbv zeta.
  set (g0 := <["f" := VFun]> (<["b" := VStr init_state]>
               {["N" := VInt (Z.of_nat N)]}) : gmap string pyval).
  set (body := fun (k : nat) (globals : gmap string pyval) =>
                 b ← load_name ∅ (<["_" := VInt (Z.of_nat k)]> globals) "b"
                     ≫= as_str;
                 b' ← Rule90Snippet.f b;
                 Ok (<["b" := VStr b']> (<["_" := VInt (Z.of_nat k)]> globals))).
  change (for_in (range N) body g0 ≫= (fun globals =>
            load_name ∅ globals "b" ≫= as_str)
          = run_rule (fun b (_ : nat) => Rule90.update_rule90 b) init_state N).
  assert (forall n, exists st g,
             run_rule (fun b (_ : nat) => Rule90.update_rule90 b) init_state n
             = Ok st /\
             for_in (range n) body g0 = Ok g /\
             g !! "b" = Some (VStr st)) as Hinv.
  { induction n as [|n (st & g & Hrun & Hfor & Hb)].
    - exists init_state, g0. repeat split.
    - destruct (update_rule90_bits st) as (b' & Hb' & _).
      exists b', (<["b" := VStr b']> (<["_" := VInt (Z.of_nat n)]> g)).
      split; [|split].
      + rewrite run_rule_S, Hrun. exact Hb'.
      + rewrite for_in_range_S, Hfor, bind_Ok. unfold body.
        rewrite (load_global _ "b" (VStr st))
          by (rewrite lookup_insert_ne by discriminate; exact Hb).
        cbn [mbind result_bind as_str].
        change (Rule90Snippet.f st) with (Rule90.update_rule90 st).
        rewrite Hb'. reflexivity.
      + apply lookup_insert_eq. }
  destruct (Hinv N) as (st & g & Hrun & Hfor & Hb).
  rewrite Hfor, bind_Ok, (load_global g "b" (VStr st) Hb), Hrun. reflexivity.
Qed.

(** X9.  Run as it is, the program embedded in the task text of record N
    of the rule-90 generator ends with [ANSWER] equal to that record's
    [gt_ans], for every N between 1 and [num_step]. *)
Theorem rule90_embedded_program_faithful
  (task_text : nat -> string) (num_step N : nat) :
  (1 <= N <= num_step)%nat ->
  exists u ds ans,
    rule90_loop task_text num_step = Ok (u, ds) /\
    recorded ds N = Some (JStr ans) /\
    Rule90Snippet.program N Rule90.init_state = Ok ans.
Proof.
  intros HN.
  destruct (rule90_run_total num_step) as [st Hst].
  destruct (seeded_loop_incremental
              (fun b (_ : nat) => Rule90.update_rule90 b)
              Rule90.init_state
              (data_line rule90_script task_text JStr (fun _ => ""))
              JStr (fun _ _ => eq_refl) num_step N st HN Hst)
    as (u & ds & prev & cur & Hloop & Hrec & _ & _ & Hrun).
  exists u, ds, cur. split; [exact Hloop|]. split; [exact Hrec|].
  rewrite rule90_snippet_run. exact Hrun.
Qed.

Lemma rule90_embedded_program_faithful_witness :
  (1 <= 2 <= 2)%nat /\
  exists u ds ans,
    rule90_loop (fun _ => "") 2 = Ok (u, ds) /\
    recorded ds 2 = Some (JStr ans) /\
    Rule90Snippet.program 2 Rule90.init_state = Ok ans.
Proof.
  assert (1 <= 2 <= 2)%nat as H by lia.
  split; [exact H|].
  exact (rule90_embedded_program_faithful (fun _ => "") 2 2 H).
Defined.

Lemma run_rule_pure {State : Type} (f : State -> State) (init_state : State)
  (N : nat) :
  run_rule (fun st (_ : nat) => Ok (f st)) init_state N
  = Ok (Nat.iter N f init_state).
Proof.
  induction N as [|N IH]; [reflexivity|].
  rewrite run_rule_S, IH. reflexivity.
Qed.

Lemma affine2d_snippet_run (init_state : Z * Z * Z) (N : nat) :
  Affine2dSnippet.program N init_state
  = Ok (gt_str (Nat.iter N Affine2d.update_affine2d init_state)).
Proof.
  destruct init_state as [[x0 y0] t0].
  unfold Affine2dSnippet.program. cbv zeta.
  set (g0 := <["f" := VFun]> (<["t" := VInt t0]> (<["y" := VInt y0]>
               (<["x" := VInt x0]> {["N" := VInt (Z.of_nat N)]})))
             : gmap string pyval).
  match goal with
  | |- for_in _ ?b _ ≫= _ = _ => set (body := b)
  end.
  assert (forall n, exists g,
             for_in (range n) body g0 = Ok g /\
             let '(x, y, t) := Nat.iter n Affine2d.update_affine2d (x0, y0, t0) in
             g !! "x" = Some (VInt x) /\ g !! "y" = Some (VInt y) /\
             g !! "t" = Some (VInt t)) as Hinv.
  { induction n as [|n (g & Hfor & Hg)].
    - exists g0. split; [reflexivity|]. repeat split.
    - rewrite Nat.iter_succ.
      destruct (Nat.iter n Affine2d.update_affine2d (x0, y0, t0))
        as [[x y] t].
      destruct Hg as (Hx & Hy & Ht).
      eexists. split.
      + rewrite for_in_range_S, Hfor, bind_Ok. unfold body.
        rewrite (load_global _ "x" (VInt x))
          by (rewrite lookup_insert_ne by discriminate; exact Hx).
        rewrite (load_global _ "y" (VInt y))
          by (rewrite lookup_insert_ne by discriminate; exact Hy).
        rewrite (load_global _ "t" (VInt t))
          by (rewrite lookup_insert_ne by discriminate; exact Ht).
        cbn [mbind result_bind as_int Affine2dSnippet.f]. reflexivity.
      + unfold Affine2d.update_affine2d. cbv beta iota zeta.
        split; [|split].
        * rewrite !lookup_insert_ne by discriminate. apply lookup_insert_eq.
        * rewrite lookup_insert_ne by discriminate. apply lookup_insert_eq.
        * apply lookup_insert_eq. }
  destruct (Hinv N) as (g & Hfor & Hg).
  destruct (Nat.iter N Affine2d.update_affine2d (x0, y0, t0)) as [[x y] t].
  destruct Hg as (Hx & Hy & Ht).
  rewrite Hfor, bind_Ok.
  rewrite (load_global g "x" (VInt x) Hx), (load_global g "y" (VInt y) Hy),
          (load_global g "t" (VInt t) Ht).
  reflexivity.
Qed.

(** X10.  Run as it is, the program embedded in the task text of record N
    of the affine generator ends with [ANSWER] equal to that record's
    [gt_ans], the string "x,y,t", for every N between 1 and [num_step]. *)
Theorem affine2d_embedded_program_faithful
  (task_text : nat -> string) (num_step N : nat) :
  (1 <= N <= num_step)%nat ->
  exists u ds ans,
    affine2d_loop task_text num_step = Ok (u, ds) /\
    recorded ds N = Some (JStr ans) /\
    Affine2dSnippet.program N Affine2d.init_state = Ok ans.
Proof.
  intros HN.
  destruct (seeded_loop_incremental
              (fun st (_ : nat) => Ok (Affine2d.update_affine2d st))
              Affine2d.init_state
              (data_line affine2d_script task_text
                         (fun st => JStr (gt_str st)) (fun _ => ""))
              (fun st => JStr (gt_str st)) (fun _ _ => eq_refl)
              num_step N _ HN (run_rule_pure _ _ _))
    as (u & ds & prev & cur & Hloop & Hrec & _ & _ & Hrun).
  exists u, ds, (gt_str cur). split; [exact Hloop|]. split; [exact Hrec|].
  rewrite run_rule_pure in Hrun. injection Hrun as <-.
  apply affine2d_snippet_run.
Qed.

Lemma affine2d_embedded_program_faithful_witness :
  (1 <= 1 <= 1)%nat /\
  exists u ds ans,
    affine2d_loop (fun _ => "") 1 = Ok (u, ds) /\
    recorded ds 1 = Some (JStr ans) /\
    Affine2dSnippet.program 1 Affine2d.init_state = Ok ans.
Proof.
  assert (1 <= 1 <= 1)%nat as H by lia.
  split; [exact H|].
  exact (affine2d_embedded_program_faithful (fun _ => "") 1 1 H).
Defined.

(** ** Digit inventory: what the rule reads *)

Lemma str_count_perm (l l' : list ascii) (c : ascii) :
  l ≡ₚ l' ->
  str_count (string_of_list_ascii l) c = str_count (string_of_list_ascii l') c.
Proof.
  intros H. induction H as [|a l l' _ IH|a b l|l1 l2 l3 _ IH1 _ IH2]; cbn.
  - reflexivity.
  - rewrite IH. reflexivity.
  - lia.
  - congruence.
Qed.

(** X11.  [update_inventory] reads its string only through the numbers of
    '0','1','2','3','4' in it and its step index only through the parity:
    any rearrangement of the characters and any index of the same parity
    give the same next state. *)
Theorem update_inventory_order_free (s s' : string) (i i' : Z) :
  list_ascii_of_string s ≡ₚ list_ascii_of_string s' ->
  i mod 2 = i' mod 2 ->
  Inventory.update_inventory s i = Inventory.update_inventory s' i'.
Proof.
  intros Hperm Hpar.
  assert (forall c, str_count s c = str_count s' c) as Hc.
  { intros c.
    rewrite <- (string_of_list_ascii_of_string s),
            <- (string_of_list_ascii_of_string s').
    apply str_count_perm. exact Hperm. }
  unfold Inventory.update_inventory. rewrite !Hc, Hpar. reflexivity.
Qed.

Lemma update_inventory_order_free_witness :
  list_ascii_of_string "01938" ≡ₚ list_ascii_of_string "83910" /\
  0 mod 2 = 4 mod 2 /\
  Inventory.update_inventory "01938" 0 = Inventory.update_inventory "83910" 4.
Proof.
  assert (list_ascii_of_string "01938" ≡ₚ list_ascii_of_string "83910") as H.
  { cbn. apply (Permutation_rev ["0"; "1"; "9"; "3"; "8"]%char). }
  split; [exact H|]. split; [reflexivity|].
  exact (update_inventory_order_free "01938" "83910" 0 4 H eq_refl).
Defined.

(** ** Shiritori: where a step can lead *)

Lemma py_getitem_In {A : Type} (x : list A) (k : Z) (v : A) :
  py_getitem x k = Ok v -> In v x.
Proof.
  unfold py_getitem. cbv zeta.
  destruct (_ <? 0); [discriminate|].
  destruct (x !! _) as [a|] eqn:E; [|discriminate].
  intros H. injection H as <-.
  apply list_elem_of_In. eapply list_elem_of_lookup_2. exact E.
Qed.

Lemma In_insert_sorted (w v : string) (ws : list string) :
  In v (Shiritori.insert_sorted w ws) -> v = w \/ In v ws.
Proof.
  induction ws as [|u ws IH]; cbn.
  - intros [<-|[]]. left. reflexivity.
  - destruct (String.leb w u); cbn.
    + intros [<-|H]; [left; reflexivity | right; exact H].
    + intros [<-|H]; [right; left; reflexivity|].
      destruct (IH H) as [->|H']; [left; reflexivity | right; right; exact H'].
Qed.

Lemma In_sorted (v : string) (ws : list string) :
  In v (Shiritori.sorted ws) -> In v ws.
Proof.
  unfold Shiritori.sorted. induction ws as [|w ws IH]; cbn.
  - intros [].
  - intros H. apply In_insert_sorted in H as [->|H];
      [left; reflexivity | right; apply IH; exact H].
Qed.

(** X12.  A Shiritori step that moves lands on a word of the dictionary
    whose first character is the last character of the current word;
    otherwise it stays on the current word. *)
Theorem shiritori_step_chains (w w' : string) (D : list string) :
  Shiritori.shiritori_step w D = Ok w' ->
  w' = w \/
  (In w' D /\
   exists c, str_getitem w (-1) = Ok c /\ Shiritori.starts_with w' c = true).
Proof.
  unfold Shiritori.shiritori_step.
  destruct (String.eqb w ""); [intros H; injection H as <-; left; reflexivity|].
  destruct (str_getitem w (-1)) as [c|e] eqn:Hc; [|discriminate].
  rewrite bind_Ok.
  destruct (Shiritori.candidates_of c D) as [|v cs] eqn:Hcand;
    [intros H; injection H as <-; left; reflexivity|].
  intros H. apply bind_Ok_inv in H as (k & _ & Hget).
  apply py_getitem_In in Hget. rewrite <- Hcand in Hget.
  unfold Shiritori.candidates_of in Hget.
  apply In_sorted, filter_In in Hget as [HD Hstart].
  right. split; [exact HD|]. exists c. split; [reflexivity | exact Hstart].
Qed.

Lemma shiritori_step_chains_witness :
  Shiritori.shiritori_step "suq" Shiritori.D = Ok "quipu" /\
  ("quipu" = "suq" \/
   (In "quipu" Shiritori.D /\
    exists c, str_getitem "suq" (-1) = Ok c /\
              Shiritori.starts_with "quipu" c = true)).
Proof.
  split; [reflexivity|].
  exact (shiritori_step_chains "suq" "quipu" Shiritori.D eq_refl).
Defined.

(** X13.  A Shiritori walk that starts on a word of the dictionary never
    raises and is on a word of the dictionary after every number of
    steps. *)
Theorem shiritori_walk_stays_in_dictionary
  (D : list string) (w0 : string) (N : nat) :
  In w0 D ->
  exists w,
    run_rule (fun w (_ : nat) => Shiritori.shiritori_step w D) w0 N = Ok w /\
    In w D.
Proof.
  intros H0.
  apply (run_rule_inv (fun w (_ : nat) => Shiritori.shiritori_step w D)
           (fun w => In w D) w0 H0).
  intros w i Hw.
  destruct (shiritori_step_total w D) as [w' Hw'].
  exists w'. split; [exact Hw'|].
  destruct (shiritori_step_chains w w' D Hw') as [->|[HD _]]; assumption.
Qed.

Lemma shiritori_walk_stays_in_dictionary_witness :
  In Shiritori.w0 Shiritori.D /\
  exists w,
    run_rule (fun w (_ : nat) => Shiritori.shiritori_step w Shiritori.D)
             Shiritori.w0 3 = Ok w /\
    In w Shiritori.D.
Proof.
  assert (In Shiritori.w0 Shiritori.D) as H by (left; reflexivity).
  split; [exact H|].
  exact (shiritori_walk_stays_in_dictionary Shiritori.D Shiritori.w0 3 H).
Defined.

Lemma for_in_seq_shift {St : Type} (f : St -> result St) (a n : nat) (s : St) :
  for_in (seq a n) (fun (_ : nat) st => f st) s
  = for_in (seq 0 n) (fun (_ : nat) st => f st) s.
Proof.
  revert a s. induction n as [|n IH]; intros a s; [reflexivity|].
  cbn. destruct (f s) as [s'|e]; cbn; [|reflexivity].
  rewrite (IH (S a)), (IH 1%nat). reflexivity.
Qed.

(** Runs of a rule that ignores its index compose. *)
Lemma run_rule_add {State : Type} (f : State -> result State)
  (init_state : State) (a b : nat) :
  run_rule (fun st (_ : nat) => f st) init_state (a + b)
  = run_rule (fun st (_ : nat) => f st) init_state a
      ≫= (fun st => run_rule (fun st (_ : nat) => f st) st b).
Proof.
  unfold run_rule, range. rewrite seq_app, for_in_app.
  destruct (for_in (seq 0 a) _ init_state) as [st|e]; [|reflexivity].
  rewrite !bind_Ok. apply for_in_seq_shift.
Qed.

Lemma shiritori_26_steps_return (w : string) :
  In w Shiritori.D ->
  run_rule (fun w (_ : nat) => Shiritori.shiritori_step w Shiritori.D) w 26
  = Ok w.
Proof.
  intros H. unfold Shiritori.D in H at 1. cbn [In] in H.
  repeat (destruct H as [<-|H]; [vm_compute; reflexivity|]).
  contradiction.
Qed.

(** X14.  On the dictionary of the Shiritori generator the walk from
    "alas" passes through all 26 words, each once, and then repeats: the
    word after N + 26 steps is the word after N steps, for every N. *)
Theorem shiritori_walk_period_26 :
  (forall N,
      run_rule (fun w (_ : nat) => Shiritori.shiritori_step w Shiritori.D)
               Shiritori.w0 (N + 26)
      = run_rule (fun w (_ : nat) => Shiritori.shiritori_step w Shiritori.D)
                 Shiritori.w0 N) /\
  map (run_rule (fun w (_ : nat) => Shiritori.shiritori_step w Shiritori.D)
                Shiritori.w0) (range 26)
  = map Ok shiritori_cycle /\
  shiritori_cycle ≡ₚ Shiritori.D.
Proof.
  split; [|split].
  - intros N. rewrite run_rule_add.
    destruct (shiritori_walk_stays_in_dictionary Shiritori.D Shiritori.w0 N)
      as (w & Hw & HD); [left; reflexivity|].
    rewrite Hw, bind_Ok. apply shiritori_26_steps_return. exact HD.
  - vm_compute. reflexivity.
  - apply NoDup_Permutation_bis.
    + unfold shiritori_cycle.
      repeat (constructor;
              [cbn [In]; intros H;
               repeat (destruct H as [H|H]; [discriminate H|]); exact H|]).
      constructor.
    + reflexivity.
    + intros w Hw. unfold shiritori_cycle in Hw. cbn [In] in Hw. unfold Shiritori.D.
      repeat (destruct Hw as [<-|Hw]; [cbn; tauto|]). contradiction.
Qed.

(** ** Memory walk *)

(** X15.  On a valid state (probe on a site, direction -1 or +1, field of
    0/1) [step_once] does not raise: it turns the probe round exactly when
    the site holds 1, flips that site and no other, moves one site along
    the ring, and the new state is valid again. *)
Theorem step_once_valid (x dir_ : Z) (F : list Z) :
  walk_valid (x, dir_, F) ->
  exists b,
    F !! Z.to_nat x = Some b /\
    let dir' := if b =? 1 then - dir_ else dir_ in
    let F' := <[Z.to_nat x := 1 - b]> F in
    let x' := (x + dir') mod py_len F in
    MemoryWalk.step_once x dir_ F = Ok (x', dir', F') /\
    length F' = length F /\
    walk_valid (x', dir', F').
Proof.
  intros (Hx & Hdir & HF).
  destruct (py_getitem_ok F x Hx) as (b & Hget & Hb).
  exists b. split; [exact Hb|]. cbv zeta.
  assert (b = 0 \/ b = 1) as Hbit.
  { exact (Forall_lookup_1 _ _ _ _ HF Hb). }
  split; [|split].
  - unfold MemoryWalk.step_once. cbv zeta.
    rewrite Hget, bind_Ok, py_setitem_ok by exact Hx.
    rewrite bind_Ok, py_mod_ok by lia. reflexivity.
  - apply length_insert.
  - unfold walk_valid, py_len. rewrite length_insert. fold (py_len F).
    split; [apply Z.mod_pos_bound; lia|]. split.
    + destruct (b =? 1); lia.
    + apply Forall_insert; [exact HF|].
      destruct Hbit as [-> | ->]; [right | left]; reflexivity.
Qed.

Lemma seed_walk_valid :
  walk_valid (MemoryWalk.x0, MemoryWalk.dir0, MemoryWalk.F0).
Proof.
  split; [unfold MemoryWalk.x0, MemoryWalk.F0, py_len; cbn [length]; lia|].
  split; [left; reflexivity|].
  unfold MemoryWalk.F0. repeat (constructor; [lia|]). constructor.
Qed.

Lemma step_once_valid_witness :
  walk_valid (MemoryWalk.x0, MemoryWalk.dir0, MemoryWalk.F0) /\
  exists b,
    MemoryWalk.F0 !! Z.to_nat MemoryWalk.x0 = Some b /\
    let dir' := if b =? 1 then - MemoryWalk.dir0 else MemoryWalk.dir0 in
    let F' := <[Z.to_nat MemoryWalk.x0 := 1 - b]> MemoryWalk.F0 in
    let x' := (MemoryWalk.x0 + dir') mod py_len MemoryWalk.F0 in
    MemoryWalk.step_once MemoryWalk.x0 MemoryWalk.dir0 MemoryWalk.F0
    = Ok (x', dir', F') /\
    length F' = length MemoryWalk.F0 /\
    walk_valid (x', dir', F').
Proof.
  split; [exact seed_walk_valid|].
  exact (step_once_valid MemoryWalk.x0 MemoryWalk.dir0 MemoryWalk.F0
           seed_walk_valid).
Defined.

(** X16.  [step_once] raises IndexError when the position is outside the
    field in Python's sense, that is at or beyond its length or below minus
    its length; on an empty field it raises for every position. *)
Theorem step_once_out_of_range (x dir_ : Z) (F : list Z) :
  py_len F <= x \/ x < - py_len F ->
  MemoryWalk.step_once x dir_ F = Raise IndexError.
Proof.
  intros Hx. unfold MemoryWalk.step_once, py_getitem. cbv zeta.
  destruct (Z.ltb_spec x 0) as [Hneg|Hpos].
  - destruct (Z.ltb_spec (x + py_len F) 0) as [_|Hge]; [reflexivity|].
    unfold py_len in *. lia.
  - destruct (Z.ltb_spec x 0) as [?|_]; [lia|].
    destruct (F !! Z.to_nat x) as [b|] eqn:E; [|reflexivity].
    apply lookup_lt_Some in E. unfold py_len in Hx. lia.
Qed.

Lemma step_once_out_of_range_witness :
  (py_len MemoryWalk.F0 <= 19 \/ 19 < - py_len MemoryWalk.F0) /\
  MemoryWalk.step_once 19 1 MemoryWalk.F0 = Raise IndexError.
Proof.
  assert (py_len MemoryWalk.F0 <= 19 \/ 19 < - py_len MemoryWalk.F0) as H
    by (left; unfold py_len; cbn; lia).
  split; [exact H|].
  exact (step_once_out_of_range 19 1 MemoryWalk.F0 H).
Defined.

(** X17.  From a valid seed the memory walk never raises: after every
    number of steps the state is valid, so the recorded position lies in
    0..L-1, and the field keeps its length L. *)
Theorem memory_walk_run_valid (x0 dir0 : Z) (F0 : list Z) (N : nat) :
  walk_valid (x0, dir0, F0) ->
  exists x dir_ F,
    run_rule (fun '(x, dir_, F) (_ : nat) => MemoryWalk.step_once x dir_ F)
             (x0, dir0, F0) N = Ok (x, dir_, F) /\
    walk_valid (x, dir_, F) /\
    length F = length F0 /\
    0 <= x < Z.of_nat (length F0).
Proof.
  intros H0.
  destruct (run_rule_inv
              (fun '(x, dir_, F) (_ : nat) => MemoryWalk.step_once x dir_ F)
              (fun st => walk_valid st /\ length st.2 = length F0)
              (x0, dir0, F0)) with (N := N)
    as ([[x dir_] F] & Hrun & Hvalid & Hlen).
  - split; [exact H0 | reflexivity].
  - intros [[x dir_] F] i [Hv Hl].
    destruct (step_once_valid x dir_ F Hv) as (b & _ & Hstep & Hlen' & Hv').
    eexists. split; [exact Hstep|]. split; [exact Hv'|].
    cbn [snd] in *. congruence.
  - exists x, dir_, F. split; [exact Hrun|]. split; [exact Hvalid|].
    cbn [snd] in Hlen. split; [exact Hlen|].
    destruct Hvalid as (Hx & _). unfold py_len in Hx. lia.
Qed.

Lemma memory_walk_run_valid_witness :
  walk_valid (MemoryWalk.x0, MemoryWalk.dir0, MemoryWalk.F0) /\
  exists x dir_ F,
    run_rule (fun '(x, dir_, F) (_ : nat) => MemoryWalk.step_once x dir_ F)
             (MemoryWalk.x0, MemoryWalk.dir0, MemoryWalk.F0) 30
    = Ok (x, dir_, F) /\
    walk_valid (x, dir_, F) /\
    length F = length MemoryWalk.F0 /\
    0 <= x < Z.of_nat (length MemoryWalk.F0).
Proof.
  split; [exact seed_walk_valid|].
  exact (memory_walk_run_valid MemoryWalk.x0 MemoryWalk.dir0 MemoryWalk.F0 30
           seed_walk_valid).
Defined.

(** ** Enzyme cofactor queue *)

(** X18.  A tick that returns converts at most one unit of substrate into
    product, exactly when both substrate and cofactor are positive: A + B
    is conserved, B grows by 0 or 1, the cofactor changes by at most 1, and
    non-negative counts stay non-negative. *)
Theorem one_tick_conserves (A B C t k A' B' C' : Z) :
  Cofactor.one_tick A B C t k = Ok (A', B', C') ->
  A' + B' = A + B /\
  (B' = B + 1 <-> 0 < A /\ 0 < C) /\
  (B' = B <-> ~ (0 < A /\ 0 < C)) /\
  C - 1 <= C' <= C + 1 /\
  (0 <= A -> 0 <= A') /\
  (0 <= C -> 0 <= C').
Proof.
  unfold Cofactor.one_tick.
  destruct (Z.ltb_spec 0 A) as [Ha|Ha], (Z.ltb_spec 0 C) as [Hc|Hc];
    cbn [andb];
    destruct (py_mod t k) as [r|e]; try discriminate;
    rewrite bind_Ok; destruct (r =? 0);
    intros Heq; injection Heq as <- <- <-; lia.
Qed.

Lemma one_tick_conserves_witness :
  Cofactor.one_tick 12 0 3 5 5 = Ok (11, 1, 3) /\
  11 + 1 = 12 + 0.
Proof.
  split; [reflexivity|].
  exact (proj1 (one_tick_conserves 12 0 3 5 5 11 1 3 eq_refl)).
Defined.

(** X19.  [one_tick] raises exactly when the regeneration period k is 0,
    and then with ZeroDivisionError; for every other k, negative ones
    included, it returns. *)
Theorem one_tick_raises_iff (A B C t k : Z) :
  (Cofactor.one_tick A B C t k = Raise ZeroDivisionError <-> k = 0) /\
  (k <> 0 <-> exists r, Cofactor.one_tick A B C t k = Ok r).
Proof.
  unfold Cofactor.one_tick, py_mod.
  destruct ((0 <? A) && (0 <? C)); destruct (Z.eqb_spec k 0) as [->|Hk];
    cbn [mbind result_bind]; repeat split;
    try (intros; reflexivity); try (intros; congruence);
    try (intros H; discriminate H);
    try (intros [r Hr]; discriminate Hr);
    try (intros _; eexists; reflexivity).
Qed.

(** X20.  With a non-zero period and non-negative initial substrate and
    cofactor, the cofactor generator's simulation never raises and after
    every number N of ticks A + B equals A0 + B0, A and C are non-negative,
    and the product B lies between B0 and B0 + min(N, A0). *)
Theorem cofactor_run_invariants (A0 B0 C0 k : Z) (N : nat) :
  k <> 0 -> 0 <= A0 -> 0 <= C0 ->
  exists A B C,
    run_rule (fun '(A, B, C) i =>
                Cofactor.one_tick A B C (Z.of_nat i + 1) k)
             (A0, B0, C0) N = Ok (A, B, C) /\
    A + B = A0 + B0 /\ 0 <= A /\ 0 <= C /\
    B0 <= B <= B0 + Z.of_nat N /\ B <= B0 + A0.
Proof.
  intros Hk HA HC. induction N as [|N (A & B & C & Hrun & Hsum & HA' & HC' & HB & HB')].
  - exists A0, B0, C0. split; [reflexivity | lia].
  - destruct (proj1 (proj2 (one_tick_raises_iff A B C (Z.of_nat N + 1) k)) Hk)
      as [[[A1 B1] C1] Hstep].
    pose proof (one_tick_conserves _ _ _ _ _ _ _ _ Hstep) as (H1 & H2 & H3 & H4 & H5 & H6).
    exists A1, B1, C1. split.
    + rewrite run_rule_S, Hrun. exact Hstep.
    + assert (B1 = B \/ B1 = B + 1) as HB1
        by (destruct (Z.ltb_spec 0 A), (Z.ltb_spec 0 C); tauto || lia).
      lia.
Qed.

Lemma cofactor_run_invariants_witness :
  5 <> 0 /\ 0 <= 12 /\ 0 <= 3 /\
  exists A B C,
    run_rule (fun '(A, B, C) i =>
                Cofactor.one_tick A B C (Z.of_nat i + 1) 5)
             (12, 0, 3) 30 = Ok (A, B, C) /\
    A + B = 12 + 0 /\ 0 <= A /\ 0 <= C /\
    0 <= B <= 0 + Z.of_nat 30 /\ B <= 0 + 12.
Proof.
  assert (5 <> 0) as Hk by lia.
  assert (0 <= 12) as HA by lia.
  assert (0 <= 3) as HC by lia.
  split; [exact Hk|]. split; [exact HA|]. split; [exact HC|].
  exact (cofactor_run_invariants 12 0 3 5 30 Hk HA HC).
Defined.

(** ** What [main] does to the output directory *)







Lemma scripts_no_mkdir_buffered (sc : script) :
  In sc scripts -> mkdir sc = NoMkdir -> writer sc = Buffered.
Proof.
  intros Hin. unfold scripts in Hin. cbn [In] in Hin.
  repeat (destruct Hin as [<-|Hin]; [cbn; first [reflexivity | discriminate]|]).
  contradiction.
Qed.


Section GeneratorFiles.

Variable json_dumps : record -> string.
Context {State : Type}.
Variable sc : script.
Variable init : State.
Variable advance : State -> nat -> result State.
Variable task_text : nat -> string.
Variable gt_ans : State -> jvalue.
Variable gt_ans_latex : State -> string.

Abbreviation gline := (data_line sc task_text gt_ans gt_ans_latex).
Abbreviation gbody := (loop_body sc advance task_text gt_ans gt_ans_latex).
Abbreviation gsim := (simulate sc init advance task_text gt_ans gt_ans_latex).
Abbreviation gmain :=
  (main json_dumps sc init advance task_text gt_ans gt_ans_latex).




Lemma main_no_directory (num_step : nat) (out_path : string) (w : world)
  (r : State * list record) :
  writer sc = Buffered ->
  mkdir sc = NoMkdir ->
  data_dir w = false ->
  gsim num_step = Ok r ->
  gmain num_step out_path w = (Raise FileNotFoundError, w).
Proof.
  intros Hw Hm Hd Hsim. unfold main. rewrite Hw.
  unfold main_buffered, mkdir_before, mkdir_after. rewrite Hm.
  rewrite prog_bind_unfold. unfold mret at 1, prog_ret at 1.
  rewrite prog_bind_unfold. unfold lift. rewrite Hsim.
  rewrite prog_bind_unfold. unfold mret at 1, prog_ret at 1.
  unfold write_dataset. rewrite prog_bind_unfold. unfold open_w at 1.
  rewrite Hd. reflexivity.
Qed.



End GeneratorFiles.



(** X22.  Three scripts (math-cellular-automaton-v1, math-complex_v1,
    math-matrix-hard-v4) never create the output directory: when it does
    not exist and [out_path] is a plain file name, their [main] runs the
    whole simulation and then stops with FileNotFoundError at [open],
    leaving the directory and files as they were. *)
Theorem missing_directory_fails :
  map file_name (List.filter no_mkdir scripts)
  = ["math-cellular-automaton-v1.py"; "math-complex_v1.py";
     "math-matrix-hard-v4.py"] /\
  forall (json_dumps : record -> string) (sc : script) (State : Type)
         (init : State) (advance : State -> nat -> result State)
         (task_text : nat -> string) (gt_ans : State -> jvalue)
         (gt_ans_latex : State -> string)
         (num_step : nat) (out_path : string) (w : world)
         (r : State * list record),
    In sc scripts ->
    no_mkdir sc = true ->
    plain_file_name out_path = true ->
    data_dir w = false ->
    simulate sc init advance task_text gt_ans gt_ans_latex num_step = Ok r ->
    main json_dumps sc init advance task_text gt_ans gt_ans_latex
         num_step out_path w
    = (Raise FileNotFoundError, w).
Proof.
  split; [reflexivity|].
  intros json_dumps sc State init advance task_text gt_ans gt_ans_latex
         num_step out_path w r Hin Hno _ Hd Hsim.
  assert (mkdir sc = NoMkdir) as Hm
    by (unfold no_mkdir in Hno; destruct (mkdir sc); congruence).
  eapply main_no_directory; eauto using scripts_no_mkdir_buffered.
Qed.

Lemma matrix_script_listed : In matrix_script scripts.
Proof. unfold scripts. cbn [In]. tauto. Qed.

Lemma missing_directory_fails_witness :
  matrix_main (fun _ => "{}") (fun _ => "") 2 "linear-mono-math-matrix.jsonl"
              (World false ∅)
  = (Raise FileNotFoundError, World false ∅).
Proof.
  exact (proj2 missing_directory_fails (fun _ => "{}") matrix_script
           Matrix.matrix Matrix.init_matrix
           (fun M _ => Ok (Matrix.update_matrix M Matrix.mod_num))
           (fun _ => "") (fun M => JInt (Matrix.sum_answer M))
           Matrix.gt_ans_latex 2%nat "linear-mono-math-matrix.jsonl"
           (World false ∅) _
           matrix_script_listed eq_refl eq_refl eq_refl eq_refl).
Defined.




Lemma memory_walk_script_listed : In memory_walk_script scripts.
Proof. unfold scripts. cbn [In]. tauto. Qed.




(** ** Matrix rule *)

Lemma wrap64_small (z : Z) :
  - 2 ^ 63 <= z < 2 ^ 63 -> Matrix.wrap64 z = z.
Proof.
  intros H. unfold Matrix.wrap64.
  rewrite Z.mod_small by lia. lia.
Qed.

Lemma mul_abs_bound (x y X Y : Z) :
  - X <= x <= X -> - Y <= y <= Y -> - (X * Y) <= x * y <= X * Y.
Proof. intros Hx Hy. nia. Qed.

(** X25.  When the four entries lie within -2^30..2^30 and [mod_num] is
    a non-zero 64-bit integer, no 64-bit operation of [update_matrix]
    overflows: with A the input with 1 added to its last entry and S the
    matrix A with its rows swapped, the result is the product A.S over the
    integers, reduced entry by entry modulo [mod_num]. *)
Theorem update_matrix_exact (a b c d m : Z) :
  - 2 ^ 30 <= a <= 2 ^ 30 -> - 2 ^ 30 <= b <= 2 ^ 30 ->
  - 2 ^ 30 <= c <= 2 ^ 30 -> - 2 ^ 30 <= d <= 2 ^ 30 ->
  - 2 ^ 63 <= m < 2 ^ 63 ->
  m <> 0 ->
  Matrix.update_matrix ((a, b), (c, d)) m
  = (((a * c + b * a) mod m, (a * (d + 1) + b * b) mod m),
     ((c * c + (d + 1) * a) mod m, (c * (d + 1) + (d + 1) * b) mod m)).
Proof.
  intros Ha Hb Hc Hd _ Hm.
  change (2 ^ 30) with 1073741824 in *.
  assert (Z.opp 1073741825 <= d + 1 <= 1073741825) as Hd' by lia.
  unfold Matrix.update_matrix, Matrix.np_mod.
  destruct (Z.eqb_spec m 0) as [?|_]; [contradiction|].
  replace (a + 0) with a by lia. replace (b + 0) with b by lia.
  replace (c + 0) with c by lia.
  rewrite (wrap64_small a), (wrap64_small b), (wrap64_small c),
          (wrap64_small (d + 1))
    by (change (2 ^ 63) with 9223372036854775808; lia).
  pose proof (mul_abs_bound a c _ _ Ha Hc).
  pose proof (mul_abs_bound b a _ _ Hb Ha).
  pose proof (mul_abs_bound a (d + 1) _ _ Ha Hd').
  pose proof (mul_abs_bound b b _ _ Hb Hb).
  pose proof (mul_abs_bound c c _ _ Hc Hc).
  pose proof (mul_abs_bound (d + 1) a _ _ Hd' Ha).
  pose proof (mul_abs_bound c (d + 1) _ _ Hc Hd').
  pose proof (mul_abs_bound (d + 1) b _ _ Hd' Hb).
  rewrite !wrap64_small
    by (change (2 ^ 63) with 9223372036854775808; lia).
  reflexivity.
Qed.

Lemma update_matrix_exact_witness :
  Matrix.update_matrix Matrix.init_matrix Matrix.mod_num = ((7, 2), (1, 8)).
Proof.
  refine (eq_trans
            (update_matrix_exact 1 2 5 (-3) 11 _ _ _ _ _ _) _);
    first [reflexivity | lia | (cbn; lia)].
Defined.

Lemma update_matrix_range (M : Matrix.matrix) (m : Z) :
  0 < m ->
  let '((a, b), (c, d)) := Matrix.update_matrix M m in
  0 <= a < m /\ 0 <= b < m /\ 0 <= c < m /\ 0 <= d < m.
Proof.
  intros Hm. destruct M as [[a b] [c d]].
  unfold Matrix.update_matrix, Matrix.np_mod.
  destruct (Z.eqb_spec m 0) as [?|_]; [lia|].
  repeat split; apply Z.mod_pos_bound; exact Hm.
Qed.

(** X26.  With a positive modulus below 2^61, after every step of the
    matrix generator's run from any seed the four entries lie in
    [0, mod_num), and the recorded answer is their sum over the integers,
    between 0 and 4 * (mod_num - 1). *)
Theorem matrix_run_range (M0 : Matrix.matrix) (m : Z) (N : nat) :
  0 < m < 2 ^ 61 ->
  exists a b c d,
    run_rule (fun M (_ : nat) => Ok (Matrix.update_matrix M m)) M0 (S N)
    = Ok ((a, b), (c, d)) /\
    (0 <= a < m /\ 0 <= b < m /\ 0 <= c < m /\ 0 <= d < m) /\
    Matrix.sum_answer ((a, b), (c, d)) = a + b + c + d /\
    0 <= Matrix.sum_answer ((a, b), (c, d)) <= 4 * (m - 1).
Proof.
  intros Hm.
  destruct (run_rule_post
              (fun M (_ : nat) => Ok (Matrix.update_matrix M m))
              (fun M => let '((a, b), (c, d)) := M in
                        0 <= a < m /\ 0 <= b < m /\ 0 <= c < m /\ 0 <= d < m)
              M0) with (N := N) as ([[a b] [c d]] & Hrun & Hr).
  { intros M i. eexists. split; [reflexivity|].
    apply update_matrix_range. lia. }
  exists a, b, c, d. split; [exact Hrun|]. split; [exact Hr|].
  assert (Matrix.sum_answer ((a, b), (c, d)) = a + b + c + d) as Hs.
  { unfold Matrix.sum_answer. apply wrap64_small.
    change (2 ^ 61) with 2305843009213693952 in Hm.
    change (2 ^ 63) with 9223372036854775808. lia. }
  split; [exact Hs|]. rewrite Hs. lia.
Qed.

Lemma matrix_run_range_witness :
  0 < Matrix.mod_num < 2 ^ 61 /\
  exists a b c d,
    run_rule (fun M (_ : nat) => Ok (Matrix.update_matrix M Matrix.mod_num))
             Matrix.init_matrix 40 = Ok ((a, b), (c, d)) /\
    (0 <= a < Matrix.mod_num /\ 0 <= b < Matrix.mod_num /\
     0 <= c < Matrix.mod_num /\ 0 <= d < Matrix.mod_num) /\
    Matrix.sum_answer ((a, b), (c, d)) = a + b + c + d /\
    0 <= Matrix.sum_answer ((a, b), (c, d)) <= 4 * (Matrix.mod_num - 1).
Proof.
  assert (0 < Matrix.mod_num < 2 ^ 61) as H
    by (unfold Matrix.mod_num; change (2 ^ 61) with 2305843009213693952; lia).
  split; [exact H|].
  exact (matrix_run_range Matrix.init_matrix Matrix.mod_num 39 H).
Defined.

(** X27.  The program embedded in the digit-inventory task text stops with
    NameError on [i] for every step count N >= 1 and every seed string; the
    one of the Ducci task text stops with NameError on [j] for every
    N >= 1 and every non-empty seed vector, and returns the empty answer
    for the empty vector. *)
Theorem embedded_programs_raise_for_every_seed :
  (forall (n : nat) (init_state : string),
      InventorySnippet.program (S n) init_state = Raise (NameError "i")) /\
  (forall (n : nat) (v : Z) (init_state : list Z),
      DucciSnippet.program (S n) (v :: init_state) = Raise (NameError "j")) /\
  (forall n : nat, DucciSnippet.program n [] = Ok "").
Proof.
  split; [|split].
  - intros n init_state. reflexivity.
  - intros n v init_state. reflexivity.
  - intros n. unfold DucciSnippet.program. cbv zeta.
    match goal with
    | |- for_in _ ?b ?g ≫= _ = _ => set (body := b); set (g0 := g)
    end.
    assert (forall m, exists g, for_in (range m) body g0 = Ok g /\
                                g !! "x" = Some (VList [])) as Hinv.
    { induction m as [|m (g & Hfor & Hx)].
      - exists g0. split; [reflexivity|]. unfold g0.
        rewrite lookup_insert_ne by discriminate. apply lookup_insert_eq.
      - eexists. split.
        + rewrite for_in_range_S, Hfor, bind_Ok. unfold body.
          rewrite (load_global _ "x" (VList []))
            by (rewrite lookup_insert_ne by discriminate; exact Hx).
          reflexivity.
        + apply lookup_insert_eq. }
    destruct (Hinv n) as (g & -> & Hx).
    rewrite bind_Ok, (load_global g "x" (VList []) Hx). reflexivity.
Qed.

(** ** Lexical chain *)

Lemma lookup_foldl_items (l : list (string * string)) (m : gmap string string)
  (w : string) :
  ~ In w (map fst l) ->
  foldl (fun m kv => <[kv.1 := kv.2]> m) m l !! w = m !! w.
Proof.
  revert m. induction l as [|[k v] l IH]; intros m Hw; [reflexivity|].
  cbn [foldl]. rewrite IH by (intros H; apply Hw; right; exact H).
  cbn [fst snd].
  apply lookup_insert_ne. intros ->. apply Hw. left. reflexivity.
Qed.

Lemma lookup_foldl_pairs (l : list (string * string)) (m : gmap string string)
  (w : string) :
  ~ In w (map fst l) -> ~ In w (map snd l) ->
  foldl (fun m ab => <[ab.2 := ab.1]> (<[ab.1 := ab.2]> m)) m l !! w = m !! w.
Proof.
  revert m. induction l as [|[a b] l IH]; intros m Ha Hb; [reflexivity|].
  cbn [foldl].
  rewrite IH by (intros H; first [apply Ha; right; exact H
                                  | apply Hb; right; exact H]).
  cbn [fst snd].
  rewrite lookup_insert_ne by (intros ->; apply Hb; left; reflexivity).
  apply lookup_insert_ne. intros ->. apply Ha. left. reflexivity.
Qed.

Lemma pairs_in_words (w : string) :
  In w (map fst Lexical.PAIRS_LIST) \/ In w (map snd Lexical.PAIRS_LIST) ->
  In w Lexical.WORDS.
Proof.
  unfold Lexical.PAIRS_LIST. cbn [map fst snd In].
  intros [H|H];
    repeat (destruct H as [<-|H]; [vm_compute; tauto|]); contradiction.
Qed.

Lemma update_word_closed (w : string) :
  In w Lexical.WORDS ->
  exists w', Lexical.update_word w = Lexical.Returns w' /\
             In w' Lexical.WORDS /\ Lexical.SYN_MAP !! w = Some w'.
Proof.
  intros H. unfold Lexical.WORDS, Lexical.SYN_ITEMS in H.
  cbn [map fst In] in H.
  repeat (destruct H as [<-|H];
          [eexists; split; [vm_compute; reflexivity|];
           split; [vm_compute; tauto | vm_compute; reflexivity]|]).
  contradiction.
Qed.

(** X28.  [update_word] raises ValueError on the empty word and KeyError on
    every other word that is not one of the 40 table words; on a table word
    it returns a table word, always through the synonym table: no table
    word starts with a letter of the ODD set, so the swap through PAIRS_MAP
    is never taken. *)
Theorem update_word_domain :
  Lexical.update_word "" = Lexical.Raises Lexical.ValueError /\
  (forall w, w <> "" -> ~ In w Lexical.WORDS ->
     Lexical.update_word w = Lexical.Raises Lexical.KeyError) /\
  (forall w, In w Lexical.WORDS ->
     exists w', Lexical.update_word w = Lexical.Returns w' /\
                In w' Lexical.WORDS /\ Lexical.SYN_MAP !! w = Some w').
Proof.
  split; [reflexivity|]. split; [|exact update_word_closed].
  intros w Hne Hw. destruct w as [|c w]; [contradiction|].
  unfold Lexical.update_word.
  assert (Lexical.PAIRS_MAP !! String c w = None) as ->.
  { unfold Lexical.PAIRS_MAP. rewrite lookup_foldl_pairs.
    - apply lookup_empty.
    - intros H. apply Hw, pairs_in_words. left. exact H.
    - intros H. apply Hw, pairs_in_words. right. exact H. }
  assert (Lexical.SYN_MAP !! String c w = None) as ->.
  { unfold Lexical.SYN_MAP. rewrite lookup_foldl_items by exact Hw.
    apply lookup_empty. }
  destruct (existsb _ _); reflexivity.
Qed.

Lemma update_word_domain_witness :
  "cold" <> "" /\ ~ In "cold" Lexical.WORDS /\
  Lexical.update_word "cold" = Lexical.Raises Lexical.KeyError.
Proof.
  assert ("cold" <> "") as H1 by discriminate.
  assert (~ In "cold" Lexical.WORDS) as H2.
  { unfold Lexical.WORDS, Lexical.SYN_ITEMS. cbn [map fst In].
    intros H. repeat (destruct H as [H|H]; [discriminate H|]). exact H. }
  split; [exact H1|]. split; [exact H2|].
  exact (proj1 (proj2 update_word_domain) "cold" H1 H2).
Defined.

Lemma walk_add (a b : nat) (w : string) :
  Lexical.walk (a + b) w
  = match Lexical.walk a w with
    | Lexical.Returns w' => Lexical.walk b w'
    | Lexical.Raises e => Lexical.Raises e
    end.
Proof.
  revert w. induction a as [|a IH]; intros w; [reflexivity|].
  cbn [Nat.add Lexical.walk].
  destruct (Lexical.update_word w) as [w'|e]; [apply IH | reflexivity].
Qed.

Lemma walk_closed (n : nat) (w : string) :
  In w Lexical.WORDS ->
  exists w', Lexical.walk n w = Lexical.Returns w' /\ In w' Lexical.WORDS.
Proof.
  revert w. induction n as [|n IH]; intros w Hw.
  - exists w. split; [reflexivity | exact Hw].
  - destruct (update_word_closed w Hw) as (w1 & Hstep & Hw1 & _).
    cbn [Lexical.walk]. rewrite Hstep. apply IH. exact Hw1.
Qed.

Lemma walk_40_returns (w : string) :
  In w Lexical.WORDS -> Lexical.walk 40 w = Lexical.Returns w.
Proof.
  intros H. unfold Lexical.WORDS, Lexical.SYN_ITEMS in H.
  cbn [map fst In] in H.
  repeat (destruct H as [<-|H]; [vm_compute; reflexivity|]).
  contradiction.
Qed.

Lemma walk_period (q r : nat) (w : string) :
  In w Lexical.WORDS -> Lexical.walk (r + q * 40) w = Lexical.walk r w.
Proof.
  intros Hw. induction q as [|q IH]; [f_equal; lia|].
  replace (r + S q * 40)%nat with ((r + q * 40) + 40)%nat by lia.
  rewrite walk_add, IH.
  destruct (walk_closed r w Hw) as (w' & -> & Hw').
  apply walk_40_returns. exact Hw'.
Qed.

(** X29.  Started on any of the 40 table words the lexical walk never
    raises and stays on table words, and it has period 40; from the default
    start "true", which is item 3 of the synonym table, the word after n
    steps is item (3 + n) mod 40 of the table, for every n. *)
Theorem lexical_walk_cycle :
  (forall (w : string) (n : nat), In w Lexical.WORDS ->
     exists w', Lexical.walk n w = Lexical.Returns w' /\
                In w' Lexical.WORDS) /\
  (forall (w : string) (n : nat), In w Lexical.WORDS ->
     Lexical.walk (n + 40) w = Lexical.walk n w) /\
  (forall n : nat,
     Lexical.walk n "true"
     = Lexical.Returns (nth ((3 + n) mod 40) Lexical.WORDS "")).
Proof.
  assert (In "true" Lexical.WORDS) as Htrue by (vm_compute; tauto).
  split; [|split].
  - intros w n Hw. apply walk_closed. exact Hw.
  - intros w n Hw. apply (walk_period 1 n w Hw).
  - intros n.
    rewrite (Nat.div_mod_eq n 40) at 1.
    replace (40 * (n / 40) + n mod 40)%nat
      with (n mod 40 + (n / 40) * 40)%nat by lia.
    rewrite walk_period by exact Htrue.
    replace ((3 + n) mod 40)%nat with ((3 + n mod 40) mod 40)%nat
      by (rewrite Nat.Div0.add_mod_idemp_r; reflexivity).
    pose proof (Nat.mod_upper_bound n 40 ltac:(lia)) as Hr.
    generalize dependent (n mod 40)%nat. clear n. intros r Hr.
    do 40 (destruct r as [|r]; [vm_compute; reflexivity|]).
    lia.
Qed.
